(** * Name relevance detector: a shallow embedding of
      [name_relevance_detector.py] and of its command line [app.py], and the
      properties of the scoring engine.

    Conventions of the embedding.
    - Python [str] values are [string]s over [ascii]; the character classes
      ([isupper], [lower], the regular-expression classes [\w] and [[a-zA-Z]])
      are the ASCII ones.
    - Python [float] scores are exact rationals ([Q]).  Every score the
      program builds is a count of halves divided by a token count, minus the
      constants 0.2 and 0.3, and it is only compared with 0.3, 0.5, 0.6, 0.7,
      0.0 and 1.0.
    - The one exception the analysis can raise ([original_name[0]] on an
      empty name) is carried by the [result] monad.
    - Nodes of the syntax tree carry an object identity [oid]: Python compares
      [ast] nodes by identity. *)

From Stdlib Require Import List String Ascii Bool Arith Lia ZArith QArith Lqa
  Permutation Sorted.
Import ListNotations.
Open Scope string_scope.
Open Scope list_scope.
Open Scope nat_scope.

Set Warnings "-register-all".

(** ** Characters and strings *)

Module Str.

Definition in_range (lo hi : nat) (c : ascii) : bool :=
  let n := nat_of_ascii c in (lo <=? n) && (n <=? hi).

(** [c.isupper()] for one character. *)
Definition isupper (c : ascii) : bool := in_range 65 90 c.

Definition islower (c : ascii) : bool := in_range 97 122 c.

Definition isalpha (c : ascii) : bool := isupper c || islower c.

Definition isdigit (c : ascii) : bool := in_range 48 57 c.

(** The class [\w]. *)
Definition is_word (c : ascii) : bool :=
  isalpha c || isdigit c || Ascii.eqb c "_".

Definition lower_char (c : ascii) : ascii :=
  if isupper c then ascii_of_nat (nat_of_ascii c + 32) else c.

Definition upper_char (c : ascii) : ascii :=
  if islower c then ascii_of_nat (nat_of_ascii c - 32) else c.

(** [s.lower()] *)
Fixpoint lower (s : string) : string :=
  match s with
  | EmptyString => EmptyString
  | String c rest => String (lower_char c) (lower rest)
  end.

(** [s.capitalize()] *)
Definition capitalize (s : string) : string :=
  match s with
  | EmptyString => EmptyString
  | String c rest => String (upper_char c) (lower rest)
  end.

(** Truth value of a string: [bool(s)]. *)
Definition truthy (s : string) : bool :=
  match s with
  | EmptyString => false
  | String _ _ => true
  end.

(** [c in s] for one character [c]. *)
Fixpoint contains_char (c : ascii) (s : string) : bool :=
  match s with
  | EmptyString => false
  | String d rest => Ascii.eqb d c || contains_char c rest
  end.

(** [part in s]: substring test. *)
Fixpoint contains (part s : string) : bool :=
  String.prefix part s ||
  match s with
  | EmptyString => false
  | String _ rest => contains part rest
  end.

(** [s.split(sep)] for a one-character separator; [cur] is the segment being
    read.  Empty segments are kept, as Python keeps them. *)
Fixpoint split_acc (sep : ascii) (s : string) (cur : string) : list string :=
  match s with
  | EmptyString => [cur]
  | String c rest =>
      if Ascii.eqb c sep then cur :: split_acc sep rest EmptyString
      else split_acc sep rest (cur ++ String c EmptyString)%string
  end.

Definition split (sep : ascii) (s : string) : list string :=
  split_acc sep s EmptyString.

(** [sep.join(parts)] *)
Fixpoint join (sep : string) (parts : list string) : string :=
  match parts with
  | [] => EmptyString
  | [p] => p
  | p :: rest => (p ++ sep ++ join sep rest)%string
  end.

(** Line boundaries of [str.splitlines] below code point 128. *)
Definition is_linebreak (c : ascii) : bool :=
  let n := nat_of_ascii c in
  (n =? 10) || (n =? 11) || (n =? 12) || (n =? 13) ||
  (n =? 28) || (n =? 29) || (n =? 30).

(** [s.splitlines()]: a carriage return followed by a line feed is one
    boundary, and a final boundary opens no empty last line. *)
Fixpoint splitlines_acc (s : string) (cur : string) : list string :=
  match s with
  | EmptyString => if truthy cur then [cur] else []
  | String c rest =>
      if is_linebreak c then
        match rest with
        | String d rest' =>
            if (nat_of_ascii c =? 13) && (nat_of_ascii d =? 10)
            then cur :: splitlines_acc rest' EmptyString
            else cur :: splitlines_acc rest EmptyString
        | EmptyString => [cur]
        end
      else splitlines_acc rest (cur ++ String c EmptyString)%string
  end.

Definition splitlines (s : string) : list string :=
  splitlines_acc s EmptyString.

(** [xs[lo:hi]] for indices that are not negative. *)
Definition slice {A : Type} (lo hi : nat) (xs : list A) : list A :=
  firstn (hi - lo) (skipn lo xs).

Definition head (s : string) : option ascii :=
  match s with
  | EmptyString => None
  | String c _ => Some c
  end.

End Str.

(** ** Regular expressions used by the detector *)

Module Re.

Definition is_word_opt (o : option ascii) : bool :=
  match o with
  | Some c => Str.is_word c
  | None => false
  end.

(** [\b] between the character before the position and the one after it;
    outside the string counts as a non-word character. *)
Definition word_boundary (prev next : option ascii) : bool :=
  xorb (is_word_opt prev) (is_word_opt next).

(** The literal [lit] read at the head of [s] under [re.IGNORECASE]; returns
    the last character read and the text after the match. *)
Fixpoint match_literal (lit s : string) (prev : option ascii)
  : option (option ascii * string) :=
  match lit with
  | EmptyString => Some (prev, s)
  | String a lit' =>
      match s with
      | EmptyString => None
      | String b s' =>
          if Ascii.eqb (Str.lower_char a) (Str.lower_char b)
          then match_literal lit' s' (Some b)
          else None
      end
  end.

(** [\b lit \b] matched at the head of [s], the character before being
    [prev]. *)
Definition match_word_at (lit : string) (prev : option ascii) (s : string)
  : bool :=
  word_boundary prev (Str.head s) &&
  match match_literal lit s prev with
  | Some (last, rest) => word_boundary last (Str.head rest)
  | None => false
  end.

Fixpoint search_word_from (lit : string) (prev : option ascii) (s : string)
  : bool :=
  match_word_at lit prev s ||
  match s with
  | EmptyString => false
  | String c rest => search_word_from lit (Some c) rest
  end.

(** [re.search(r'\b' + re.escape(part) + r'\b', text, re.IGNORECASE)] as a
    truth value. *)
Definition search_word (part text : string) : bool :=
  search_word_from part None text.

(** The longest run of letters at the head of [s]. *)
Fixpoint letter_run (s : string) : string :=
  match s with
  | String c rest =>
      if Str.isalpha c then String c (letter_run rest) else EmptyString
  | EmptyString => EmptyString
  end.

Fixpoint last_char (prev : option ascii) (s : string) : option ascii :=
  match s with
  | EmptyString => prev
  | String c rest => last_char (Some c) rest
  end.

Fixpoint drop (n : nat) (s : string) : string :=
  match n, s with
  | S k, String _ rest => drop k rest
  | _, _ => s
  end.

(** Backtracking of the greedy [[a-zA-Z]{3,}]: the lengths [len], [len - 1],
    ... down to 3 are tried in turn, each followed by [\b]. *)
Fixpoint backtrack (len : nat) (s : string) : option string :=
  match len with
  | O => None
  | S k =>
      if len <? 3 then None
      else
        let w := substring 0 len s in
        if word_boundary (last_char None w) (Str.head (drop len s))
        then Some w
        else backtrack k s
  end.

(** [\b[a-zA-Z]{3,}\b] matched at the head of [s]. *)
Definition match_long_word_at (prev : option ascii) (s : string)
  : option string :=
  if word_boundary prev (Str.head s)
  then backtrack (String.length (letter_run s)) s
  else None.

(** The scan of [re.findall]: matches do not overlap; [skip] counts the
    characters of the last match that are still to be passed over. *)
Fixpoint findall_scan (prev : option ascii) (skip : nat) (s : string)
  : list string :=
  match s with
  | EmptyString => []
  | String c rest =>
      match skip with
      | S k => findall_scan (Some c) k rest
      | O =>
          match match_long_word_at prev s with
          | Some w => w :: findall_scan (Some c) (String.length w - 1) rest
          | None => findall_scan (Some c) 0 rest
          end
      end
  end.

(** [re.findall(r'\b[a-zA-Z]{3,}\b', text)] *)
Definition findall_long_words (text : string) : list string :=
  findall_scan None 0 text.

End Re.

(** ** The name splitter *)

(** The loop of [_split_name] over the characters of a name without an
    underscore; the state is [(parts, current)]. *)
Fixpoint split_loop (name : string) (parts : list string) (current : string)
  : list string * string :=
  match name with
  | EmptyString => (parts, current)
  | String char rest =>
      if Str.isupper char && Str.truthy current
      then split_loop rest (parts ++ [Str.lower current]) (String char EmptyString)
      else split_loop rest parts (current ++ String char EmptyString)%string
  end.

Definition _split_name (name : string) : list string :=
  if Str.contains_char "_" name then
    map Str.lower (filter Str.truthy (Str.split "_" name))
  else
    let '(parts, current) := split_loop name [] EmptyString in
    if Str.truthy current then parts ++ [Str.lower current] else parts.

(** ** The relevance scorer *)

Definition Qltb (x y : Q) : bool := negb (Qle_bool y x).

(** [min(a, b)] and [max(a, b)] of Python: the first argument is kept unless
    the second is strictly smaller (larger). *)
Definition py_min (a b : Q) : Q := if Qltb b a then b else a.

Definition py_max (a b : Q) : Q := if Qltb a b then b else a.

(** [s in (...)] for a tuple of strings. *)
Definition str_mem (s : string) (l : list string) : bool :=
  existsb (String.eqb s) l.

Definition stoplist : list string :=
  ["get"; "set"; "is"; "has"; "on"; "class"].

Definition generic_names : list string :=
  ["test"; "helper"; "util"; "utility"; "misc"].

Definition filtered_parts (name : string) : list string :=
  filter (fun p => negb (str_mem p stoplist)) (_split_name name).

(** One turn of the loop that counts the parts found in the implementation. *)
Definition count_part (implementation : string) (found_parts : Q)
  (part : string) : Q :=
  if (2 <? String.length part) && Re.search_word part implementation
  then (found_parts + 1)%Q
  else if Str.contains part (Str.lower implementation)
  then (found_parts + (1 # 2))%Q
  else found_parts.

Definition found_parts_of (implementation : string) (parts : list string) : Q :=
  fold_left (count_part implementation) parts 0%Q.

Definition Qlen {A : Type} (l : list A) : Q := inject_Z (Z.of_nat (List.length l)).

(** The score and the reasons before the penalties. *)
Definition base_score (name implementation : string) : Q * list string :=
  let filtered := filtered_parts name in
  let found_parts := found_parts_of implementation filtered in
  match filtered with
  | [] => ((1 # 2)%Q, ["Name doesn't contain meaningful parts"])
  | _ :: _ => ((found_parts / Qlen filtered)%Q, [])
  end.

Definition generic_penalty (name : string) (st : Q * list string)
  : Q * list string :=
  let '(score, reasons) := st in
  if str_mem (Str.lower name) generic_names
  then ((score - (2 # 10))%Q, reasons ++ ["Name is too generic"])
  else (score, reasons).

Definition short_penalty (name : string) (st : Q * list string)
  : Q * list string :=
  let '(score, reasons) := st in
  if String.length name <=? 2
  then ((score - (3 # 10))%Q, reasons ++ ["Name is too short"])
  else (score, reasons).

(** The score and the reasons after the penalties, before the clamp. *)
Definition adjusted_score (name implementation : string) : Q * list string :=
  short_penalty name (generic_penalty name (base_score name implementation)).

Definition wrong_name : string :=
  "Name different from implementation - Wrong name".
Definition consider_changing : string :=
  "Name somewhat reflects implementation - Consider changing".
Definition needs_improvement : string :=
  "Name reflects implementation - needs improvement".
Definition reflects_good : string :=
  "Name reflects implementation - good".
Definition reflects_well : string :=
  "Name reflects implementation well".

(** The [if]/[elif] chain that appends the classification. *)
Definition classification (score : Q) : string :=
  if Qltb score (3 # 10) then wrong_name
  else if Qltb score (5 # 10) then consider_changing
  else if Qltb score (6 # 10) then needs_improvement
  else if Qltb score (7 # 10) then reflects_good
  else reflects_well.

Definition clamp (score : Q) : Q := py_max 0 (py_min 1 score).

Definition _calculate_relevance (name implementation : string)
  : Q * list string :=
  let '(score, reasons) := adjusted_score name implementation in
  let reasons := reasons ++ [classification score] in
  (clamp score, reasons).

(** ** The suggestion generator *)

Inductive exn : Type :=
| IndexError
| Exception (message : string).

Inductive result (A : Type) : Type :=
| Ok (a : A)
| Raise (e : exn).

Arguments Ok {A} a.
Arguments Raise {A} e.

Definition bind {A B : Type} (m : result A) (k : A -> result B) : result B :=
  match m with
  | Ok a => k a
  | Raise e => Raise e
  end.

Notation "x <- m ;; k" := (bind m (fun x => k))
  (at level 61, m at next level, right associativity).

(** [collections.Counter]: the keys stay in the order of their first
    occurrence. *)
Definition counter : Type := list (string * nat).

Fixpoint counter_add (w : string) (c : counter) : counter :=
  match c with
  | [] => [(w, 1)]
  | (k, n) :: rest =>
      if String.eqb k w then (k, S n) :: rest
      else (k, n) :: counter_add w rest
  end.

Definition Counter (words : list string) : counter :=
  fold_left (fun c w => counter_add w c) words [].

Definition counter_del (w : string) (c : counter) : counter :=
  filter (fun kv => negb (String.eqb (fst kv) w)) c.

Fixpoint insert_desc (x : string * nat) (l : counter) : counter :=
  match l with
  | [] => [x]
  | y :: rest => if snd x <? snd y then y :: insert_desc x rest else x :: l
  end.

(** [most_common(n)]: by decreasing count, equal counts in the order of first
    occurrence. *)
Definition most_common (n : nat) (c : counter) : counter :=
  firstn n (fold_right insert_desc [] c).

Definition stop_words : list string :=
  ["the"; "and"; "for"; "with"; "from"; "self"; "none"; "true"; "false";
   "return"].

Definition _generate_suggestion (original_name implementation : string)
  : result string :=
  let words := Re.findall_long_words (Str.lower implementation) in
  let word_counts :=
    fold_left (fun c word => counter_del word c) stop_words (Counter words) in
  let common_words := map fst (most_common 3 word_counts) in
  match common_words with
  | [] =>
      Ok "Consider adding a clear docstring to help determine a better name"
  | first :: others =>
      if Str.contains_char "_" original_name then
        Ok ("Consider: " ++ Str.join "_" common_words)%string
      else
        match Str.head original_name with
        | None => Raise IndexError
        | Some c =>
            if Str.isupper c then
              Ok ("Consider: " ++ String.concat EmptyString
                                    (map Str.capitalize common_words))%string
            else
              Ok ("Consider: " ++ first ++
                  String.concat EmptyString (map Str.capitalize others))%string
        end
  end.

(** ** The syntax tree *)

(** Expressions, as far as the detector looks at them: assignment targets and
    the constant of a docstring. *)
Inductive expr : Type :=
| Name (id : string)
| Tuple (elts : list expr)
| Constant_str (value : string)
| OtherExpr.

(** The nodes that can hold a statement below them.  Expression nodes hold no
    definition, so [ast.walk] meets the nodes below in the same relative order
    whether or not they are walked too.  [Other] stands for every other
    statement, exception handler or match case: [body] is its [body]
    attribute when it has one, [rest] its further child statements
    ([orelse], [handlers], [finalbody], [cases]) in field order. *)
Inductive node : Type :=
| Module (oid : nat) (body : list node)
| ClassDef (oid : nat) (name : string) (body : list node)
| FunctionDef (oid : nat) (name : string) (body : list node)
    (lineno end_lineno : nat)
| AsyncFunctionDef (oid : nat) (name : string) (body : list node)
| Assign (oid : nat) (targets : list expr)
| Expr (oid : nat) (value : expr)
| Other (oid : nat) (body : option (list node)) (rest : list node).

Module Ast.

(** Object identity of a node. *)
Definition oid (n : node) : nat :=
  match n with
  | Module o _ | ClassDef o _ _ | FunctionDef o _ _ _ _
  | AsyncFunctionDef o _ _ | Assign o _ | Expr o _ | Other o _ _ => o
  end.

(** [isinstance(n, ast.ClassDef)] *)
Definition isClassDef (n : node) : bool :=
  match n with
  | ClassDef _ _ _ => true
  | _ => false
  end.

(** [isinstance(n, ast.FunctionDef)]: [ast.AsyncFunctionDef] is a class of
    its own, not a subclass. *)
Definition isFunctionDef (n : node) : bool :=
  match n with
  | FunctionDef _ _ _ _ _ => true
  | _ => false
  end.

Definition isAsyncFunctionDef (n : node) : bool :=
  match n with
  | AsyncFunctionDef _ _ _ => true
  | _ => false
  end.

(** [n.name] of a definition. *)
Definition name (n : node) : string :=
  match n with
  | ClassDef _ nm _ | FunctionDef _ nm _ _ _ | AsyncFunctionDef _ nm _ => nm
  | _ => EmptyString
  end.

(** The [body] attribute, [None] when [hasattr(n, 'body')] is false. *)
Definition attr_body (n : node) : option (list node) :=
  match n with
  | Module _ b | ClassDef _ _ b | FunctionDef _ _ b _ _
  | AsyncFunctionDef _ _ b => Some b
  | Other _ b _ => b
  | Assign _ _ | Expr _ _ => None
  end.

Definition body (n : node) : list node :=
  match attr_body n with
  | Some b => b
  | None => []
  end.

(** [ast.iter_child_nodes], restricted to statement nodes. *)
Definition iter_child_nodes (n : node) : list node :=
  match n with
  | Other _ _ rest => body n ++ rest
  | _ => body n
  end.

(** Number of nodes of a tree. *)
Fixpoint weight (n : node) : nat :=
  match n with
  | Module _ b | ClassDef _ _ b | FunctionDef _ _ b _ _
  | AsyncFunctionDef _ _ b => S (list_sum (map weight b))
  | Other _ b rest =>
      S (match b with
         | Some b' => list_sum (map weight b')
         | None => 0
         end + list_sum (map weight rest))
  | Assign _ _ | Expr _ _ => 1
  end.

Definition queue_weight (todo : list node) : nat :=
  list_sum (map weight todo).

(** [ast.walk]: a queue, the children of the node taken from its left end are
    put at its right end.  One unit of [fuel] is spent per node. *)
Fixpoint walk_queue (fuel : nat) (todo : list node) : list node :=
  match fuel with
  | O => []
  | S fuel' =>
      match todo with
      | [] => []
      | n :: todo' => n :: walk_queue fuel' (todo' ++ iter_child_nodes n)
      end
  end.

Definition walk (tree : node) : list node :=
  walk_queue (weight tree) [tree].

(** [x in l] on nodes: Python falls back on identity. *)
Definition node_in (x : node) (l : list node) : bool :=
  existsb (fun y => oid y =? oid x) l.

End Ast.

(** ** The detector *)

Record entry : Type := {
  name : string;
  relevance_score : Q;
  reasons : list string;
  suggestion : option string
}.

(** The dictionary returned by [analyze]. *)
Inductive report : Type :=
| Error (error : string)
| Results (classes functions : list entry) (overall_score : Q).

Definition keys (r : report) : list string :=
  match r with
  | Error _ => ["error"]
  | Results _ _ _ => ["classes"; "functions"; "overall_score"]
  end.

Record detector : Type := {
  code_file : string;
  code : option string;
  tree : option node
}.

(** [sum(xs)] *)
Definition sum (xs : list Q) : Q := fold_left Qplus xs 0%Q.

Definition _extract_class_attributes (cls : node) : list string :=
  fold_left
    (fun attributes n =>
       match n with
       | Assign _ targets =>
           fold_left
             (fun attributes target =>
                match target with
                | Name id => attributes ++ [id]
                | _ => attributes
                end)
             targets attributes
       | _ => attributes
       end)
    (Ast.body cls) [].

Definition _is_method (tree fn : node) : bool :=
  existsb Ast.isClassDef
    (filter
       (fun parent =>
          match Ast.attr_body parent with
          | Some b => Ast.node_in fn b
          | None => false
          end)
       (Ast.iter_child_nodes tree)).

(** Line numbers start at 1; only function definitions are asked for their
    source. *)
Definition _get_node_source (code : option string) (n : node) : string :=
  match code with
  | None => EmptyString
  | Some text =>
      if negb (Str.truthy text) then EmptyString
      else
        match n with
        | FunctionDef _ _ _ lineno end_lineno =>
            Str.join " " (Str.slice (lineno - 1) end_lineno (Str.splitlines text))
        | _ => EmptyString
        end
  end.

Definition exn_message (e : exn) : string :=
  match e with
  | IndexError => "string index out of range"
  | Exception message => message
  end.

Section Detector.

(** The library functions the detector calls: [inspect.cleandoc], reading the
    file, and [ast.parse]. *)
Variable cleandoc : string -> string.
Variable read_file : string -> result string.
Variable ast_parse : string -> result node.

(** [ast.get_docstring(n)] of a class, function or module. *)
Definition get_docstring (n : node) : option string :=
  match Ast.body n with
  | Expr _ (Constant_str text) :: _ => Some (cleandoc text)
  | _ => None
  end.

(** [ast.get_docstring(n)], or the empty string when there is none. *)
Definition docstring_or_empty (n : node) : string :=
  match get_docstring n with
  | Some text => text
  | None => EmptyString
  end.

(** The method names of a class summary. *)
Definition methods_of (cls : node) : list string :=
  map Ast.name (filter Ast.isFunctionDef (Ast.body cls)).

Definition class_summary (cls : node) : string :=
  (docstring_or_empty cls ++ " " ++ Str.join " " (methods_of cls) ++ " "
   ++ Str.join " " (_extract_class_attributes cls))%string.

Definition function_summary (code : option string) (fn : node) : string :=
  (docstring_or_empty fn ++ " " ++ _get_node_source code fn)%string.

(** The dictionary appended for one entity. *)
Definition make_entry (entity_name impl_summary : string) : result entry :=
  let '(score, reasons) := _calculate_relevance entity_name impl_summary in
  suggestion <-
    (if Qltb score (7 # 10)
     then s <- _generate_suggestion entity_name impl_summary ;; Ok (Some s)
     else Ok None) ;;
  Ok {| name := entity_name;
        relevance_score := score;
        reasons := reasons;
        suggestion := suggestion |}.

Fixpoint classes_loop (nodes : list node) (classes : list entry)
  : result (list entry) :=
  match nodes with
  | [] => Ok classes
  | n :: rest =>
      if Ast.isClassDef n then
        e <- make_entry (Ast.name n) (class_summary n) ;;
        classes_loop rest (classes ++ [e])
      else classes_loop rest classes
  end.

Definition _analyze_classes (tree : node) : result (list entry) :=
  classes_loop (Ast.walk tree) [].

Fixpoint functions_loop (code : option string) (tree : node)
  (nodes : list node) (functions : list entry) : result (list entry) :=
  match nodes with
  | [] => Ok functions
  | n :: rest =>
      if Ast.isFunctionDef n && negb (_is_method tree n) then
        e <- make_entry (Ast.name n) (function_summary code n) ;;
        functions_loop code tree rest (functions ++ [e])
      else functions_loop code tree rest functions
  end.

Definition _analyze_functions (code : option string) (tree : node)
  : result (list entry) :=
  functions_loop code tree (Ast.walk tree) [].

(** [load_file]: every exception is caught and printed; the second component
    is what was printed. *)
Definition load_file (self : detector) : detector * list string :=
  match read_file (code_file self) with
  | Raise e => (self, ["Error loading or parsing file: " ++ exn_message e]%string)
  | Ok text =>
      let self :=
        {| code_file := code_file self; code := Some text; tree := tree self |} in
      match ast_parse text with
      | Raise e =>
          (self, ["Error loading or parsing file: " ++ exn_message e]%string)
      | Ok t =>
          ({| code_file := code_file self; code := code self; tree := Some t |},
           [])
      end
  end.

Definition __init__ (path : string) : detector * list string :=
  load_file {| code_file := path; code := None; tree := None |}.

Definition analyze (self : detector) : result report :=
  match tree self with
  | None => Ok (Error "Failed to parse the file")
  | Some t =>
      classes <- _analyze_classes t ;;
      functions <- _analyze_functions (code self) t ;;
      let class_scores := map relevance_score classes in
      let func_scores := map relevance_score functions in
      let all_scores := class_scores ++ func_scores in
      let overall_score :=
        match all_scores with
        | [] => 0%Q
        | _ :: _ => (sum all_scores / Qlen all_scores)%Q
        end in
      Ok (Results classes functions overall_score)
  end.

Definition analyze_file (file_path : string) : result report :=
  analyze (fst (__init__ file_path)).

End Detector.

(** ** Reference definitions, written from the specification *)

Module Spec.

Definition starts_upper (s : string) : bool :=
  match s with
  | String c _ => Str.isupper c
  | EmptyString => false
  end.

(** The segments of a name without delimiter: a segment starts at the first
    character and at every later uppercase character. *)
Fixpoint upper_segments (name : string) : list string :=
  match name with
  | EmptyString => []
  | String c rest =>
      if starts_upper rest then String c EmptyString :: upper_segments rest
      else
        match upper_segments rest with
        | [] => [String c EmptyString]
        | seg :: segs => String c seg :: segs
        end
  end.

(** What one filtered token counts for. *)
Definition token_credit (implementation token : string) : Q :=
  if (2 <? String.length token) && Re.search_word token implementation
  then 1%Q
  else if Str.contains (Str.lower token) (Str.lower implementation)
  then (1 # 2)%Q
  else 0%Q.

Definition total (xs : list Q) : Q := fold_right Qplus 0%Q xs.

Definition mean (xs : list Q) : Q := (total xs / Qlen xs)%Q.

Definition classification_strings : list string :=
  [wrong_name; consider_changing; needs_improvement; reflects_good;
   reflects_well].

(** Attribute names as the specification words them: one name per
    assignment with a single simple target. *)
Definition single_target_names (cls : node) : list string :=
  flat_map
    (fun n =>
       match n with
       | Assign _ [Name id] => [id]
       | _ => []
       end)
    (Ast.body cls).

Definition target_names (targets : list expr) : list string :=
  flat_map
    (fun target =>
       match target with
       | Name id => [id]
       | _ => []
       end)
    targets.

(** Attribute names, every simple target of every assignment. *)
Definition assigned_names (cls : node) : list string :=
  flat_map
    (fun n =>
       match n with
       | Assign _ targets => target_names targets
       | _ => []
       end)
    (Ast.body cls).

End Spec.

(** Every class and function definition of the tree has a name that is not
    empty, as every tree built by the parser has. *)
Fixpoint names_ok (n : node) : bool :=
  match n with
  | Module _ b => forallb names_ok b
  | ClassDef _ nm b | FunctionDef _ nm b _ _ | AsyncFunctionDef _ nm b =>
      Str.truthy nm && forallb names_ok b
  | Other _ b rest =>
      match b with
      | Some b' => forallb names_ok b'
      | None => true
      end && forallb names_ok rest
  | Assign _ _ | Expr _ _ => true
  end.

(** [n] is [m] or lies below it, at any depth. *)
Inductive descendant (n : node) : node -> Prop :=
| descendant_self : descendant n n
| descendant_child (c m : node) :
    In c (Ast.iter_child_nodes m) -> descendant n c -> descendant n m.

(** ** Loop states of the name splitter *)

Definition finish (st : list string * string) : list string :=
  let '(parts, current) := st in
  if Str.truthy current then parts ++ [Str.lower current] else parts.

(** The first segment still being read is [current]. *)
Definition attach (current rest : string) : list string :=
  if Spec.starts_upper rest then current :: Spec.upper_segments rest
  else
    match Spec.upper_segments rest with
    | [] => [current]
    | seg :: segs => (current ++ seg)%string :: segs
    end.

(** ** Properties of report entries and sample inputs *)

(** The suggestion is there exactly when the score is below 0.7. *)
Definition suggestion_rule (e : entry) : Prop :=
  ((7 # 10 <= relevance_score e)%Q -> suggestion e = None) /\
  ((relevance_score e < 7 # 10)%Q -> exists s, suggestion e = Some s).

Definition not_async (n : node) : bool := negb (Ast.isAsyncFunctionDef n).

(** The file cannot be read, or it is read and cannot be parsed. *)
Definition load_fails (read_file : string -> result string)
  (ast_parse : string -> result node) (path : string) : Prop :=
  (exists e, read_file path = Raise e) \/
  (exists text e, read_file path = Ok text /\ ast_parse text = Raise e).

Module Sample.

Definition identity (s : string) : string := s.

(** A class in a class, with one method:
<<
class Outer:
    class Inner:
        def method(self):
            return 1
>> *)
Definition nested_code : string :=
  "class Outer:
    class Inner:
        def method(self):
            return 1
".

Definition method_node : node :=
  FunctionDef 3 "method" [Other 4 None []] 3 4.

Definition inner_class : node := ClassDef 2 "Inner" [method_node].

Definition nested_tree : node :=
  Module 0 [ClassDef 1 "Outer" [inner_class]].

(** A class body with a chained assignment, a tuple assignment and a simple
    one:
<<
class Box:
    width = height = 0
    low, high = 0, 9
    depth = 1
>> *)
Definition box_class : node :=
  ClassDef 1 "Box"
    [Assign 2 [Name "width"; Name "height"];
     Assign 3 [Tuple [Name "low"; Name "high"]];
     Assign 4 [Name "depth"]].

(** A module with one class and one function:
<<
class Helper:
    def load(self):
        pass
def calculate_total(items):
    total = sum(items)
    return total
>> *)
Definition shop_code : string :=
  "class Helper:
    def load(self):
        pass
def calculate_total(items):
    total = sum(items)
    return total
".

Definition shop_tree : node :=
  Module 0
    [ClassDef 1 "Helper" [FunctionDef 2 "load" [Other 3 None []] 2 3];
     FunctionDef 4 "calculate_total" [Assign 5 [Name "total"]; Other 6 None []]
       4 6].

Definition shop_read (path : string) : result string :=
  if String.eqb path "shop.py" then Ok shop_code
  else Raise (Exception "No such file or directory").

Definition shop_parse (text : string) : result node :=
  if String.eqb text shop_code then Ok shop_tree
  else Raise (Exception "invalid syntax").

(** A class with a coroutine and a method:
<<
class Client:
    async def fetch(self):
        pass
    def close(self):
        pass
>> *)
Definition client_class : node :=
  ClassDef 1 "Client"
    [AsyncFunctionDef 2 "fetch" [Other 3 None []];
     FunctionDef 4 "close" [Other 5 None []] 4 5].

End Sample.

(** ** Further definitions for the properties of the detector *)

(** [s] without the occurrences of [c]. *)
Fixpoint remove_char (c : ascii) (s : string) : string :=
  match s with
  | EmptyString => EmptyString
  | String d rest =>
      if Ascii.eqb d c then remove_char c rest
      else String d (remove_char c rest)
  end.

Definition no_meaningful_parts : string :=
  "Name doesn't contain meaningful parts".

Definition too_generic : string := "Name is too generic".

Definition too_short : string := "Name is too short".

Definition fallback_suggestion : string :=
  "Consider adding a clear docstring to help determine a better name".

(** The words [_generate_suggestion] builds its answer from. *)
Definition common_words (implementation : string) : list string :=
  map fst
    (most_common 3
       (fold_left (fun c word => counter_del word c) stop_words
          (Counter (Re.findall_long_words (Str.lower implementation))))).

Definition unit_interval (x : Q) : Prop := (0 <= x)%Q /\ (x <= 1)%Q.

(** The nodes [_analyze_functions] keeps. *)
Definition scored_function (tree n : node) : bool :=
  Ast.isFunctionDef n && negb (_is_method tree n).

(** The entry [e] was built for the node [n] with the summary [summary n]. *)
Definition entry_of (summary : node -> string) (n : node) (e : entry) : Prop :=
  name e = Ast.name n /\
  relevance_score e = fst (_calculate_relevance (Ast.name n) (summary n)) /\
  reasons e = snd (_calculate_relevance (Ast.name n) (summary n)).

(** The answer of [_generate_suggestion] for the words [ws]. *)
Definition suggestion_text (original_name : string) (ws : list string)
  : string :=
  match ws with
  | [] => fallback_suggestion
  | first :: others =>
      if Str.contains_char "_" original_name
      then ("Consider: " ++ Str.join "_" ws)%string
      else if Spec.starts_upper original_name
      then ("Consider: "
            ++ String.concat EmptyString (map Str.capitalize ws))%string
      else ("Consider: " ++ first
            ++ String.concat EmptyString (map Str.capitalize others))%string
  end.

(** The count a counter holds for a word, 0 for a missing key. *)
Definition count_in (c : counter) (w : string) : nat :=
  match find (fun kv => String.eqb (fst kv) w) c with
  | Some kv => snd kv
  | None => 0
  end.

(** How often [w] is among the words found in the implementation. *)
Definition occurrences (implementation w : string) : nat :=
  count_occ string_dec (Re.findall_long_words (Str.lower implementation)) w.

(** [s] holds a line boundary. *)
Fixpoint has_linebreak (s : string) : bool :=
  match s with
  | EmptyString => false
  | String c rest => Str.is_linebreak c || has_linebreak rest
  end.

(** ** The command line ([app.py]) *)

(** What the program does to the outside: a call of [print], and the file
    written by [json.dump]. *)
Inductive event : Type :=
| Print (text : string)
| WriteFile (path content : string).

(** The events of a procedure and the exception that ended it, if any. *)
Definition run : Type := (list event * option exn)%type.

(** [a] and then, unless [a] raised, [b]. *)
Definition and_then (a b : run) : run :=
  match a with
  | (out, Some x) => (out, Some x)
  | (out, None) => (out ++ fst b, snd b)
  end.

Definition is_print (ev : event) : Prop := exists text, ev = Print text.

Module Os.

(** [s.endswith(suffix)] *)
Fixpoint endswith (s suffix : string) : bool :=
  String.eqb s suffix ||
  match s with
  | EmptyString => false
  | String _ rest => endswith rest suffix
  end.

(** [os.path.basename] on a POSIX path: what follows the last slash. *)
Fixpoint basename_acc (p cur : string) : string :=
  match p with
  | EmptyString => cur
  | String c rest =>
      if Ascii.eqb c "/" then basename_acc rest EmptyString
      else basename_acc rest (cur ++ String c EmptyString)%string
  end.

Definition basename (p : string) : string := basename_acc p EmptyString.

(** [s.replace(old, new)] for a pattern [old] that is not empty: the
    occurrences are taken from left to right and do not overlap; [skip]
    counts the characters of the last occurrence still to be passed over. *)
Fixpoint replace_scan (old new : string) (skip : nat) (s : string) : string :=
  match s with
  | EmptyString => EmptyString
  | String c rest =>
      match skip with
      | S k => replace_scan old new k rest
      | O =>
          if String.prefix old s
          then (new ++ replace_scan old new (String.length old - 1) rest)%string
          else String c (replace_scan old new 0 rest)
      end
  end.

Definition replace (old new s : string) : string := replace_scan old new 0 s.

End Os.

(** The name of the file the results are saved in. *)
Definition output_file (file_path : string) : string :=
  Os.replace ".py" "_analysis.json" (Os.basename file_path).

Section App.

(** [f"{x:.2f}"], [json.dump(results, f, indent=2)] as the text written,
    [os.path.exists], opening a file for writing, and the path of the sample
    file beside [app.py]. *)
Variable format_2f : Q -> string.
Variable json_dump : report -> string.
Variable path_exists : string -> bool.
Variable open_write : string -> result unit.
Variable default_path : string.

Variable cleandoc : string -> string.
Variable read_file : string -> result string.
Variable ast_parse : string -> result node.

(** One turn of a loop of [print_results]. *)
Definition print_entity (detailed : bool) (e : entry) : run :=
  match reasons e with
  | [] => ([], Some IndexError)
  | first :: _ =>
      (Print ("  - " ++ name e ++ ": " ++ format_2f (relevance_score e)
              ++ "/1.00 - " ++ first)%string
       :: (if detailed then
             match suggestion e with
             | Some s =>
                 if Str.truthy s then [Print ("    Suggestion: " ++ s)%string]
                 else []
             | None => []
             end
           else []),
       None)
  end.

Fixpoint print_entities (detailed : bool) (es : list entry) : run :=
  match es with
  | [] => ([], None)
  | e :: rest =>
      and_then (print_entity detailed e) (print_entities detailed rest)
  end.

Definition print_results (results : report) (detailed : bool) : run :=
  and_then
    ([Print "
===== NAME RELEVANCE ANALYSIS ====="], None)
    match results with
    | Error _ => ([], Some (Exception "'overall_score'"))
    | Results classes functions overall_score =>
        and_then
          ([Print ("Overall Score: " ++ format_2f overall_score ++ "/1.00
")%string;
            Print "CLASSES:"], None)
          (and_then (print_entities detailed classes)
             (and_then
                ([Print "
FUNCTIONS:"], None)
                (print_entities detailed functions)))
    end.

(** [sys.argv[1]] when there is one, else the sample file. *)
Definition file_path_of (argv : list string) : string :=
  match argv with
  | _ :: p :: _ => p
  | _ => default_path
  end.

Definition main (argv : list string) : run :=
  let file_path := file_path_of argv in
  if negb (path_exists file_path) then
    ([Print ("Error: File '" ++ file_path ++ "' not found.")%string], None)
  else if negb (Os.endswith file_path ".py") then
    ([Print ("Error: File '" ++ file_path ++ "' is not a Python file.")%string],
     None)
  else
    and_then ([Print ("Analyzing: " ++ file_path)%string], None)
      (let '(detector, printed) := __init__ read_file ast_parse file_path in
       and_then (map Print printed, None)
         match analyze cleandoc detector with
         | Raise e => ([], Some e)
         | Ok (Error error) => ([Print ("Error: " ++ error)%string], None)
         | Ok results =>
             let detailed :=
               str_mem "--detailed" argv || str_mem "-d" argv in
             and_then (print_results results detailed)
               (if str_mem "--save" argv || str_mem "-s" argv then
                  match open_write (output_file file_path) with
                  | Raise e => ([], Some e)
                  | Ok _ =>
                      ([WriteFile (output_file file_path) (json_dump results);
                        Print ("
Results saved to " ++ output_file file_path)%string],
                       None)
                  end
                else ([], None))
         end).

End App.

(** Sample surroundings of the command line: every path exists, every file
    can be opened, and scores and reports are printed by placeholders. *)
Module SampleApp.

Definition show_score (x : Q) : string := "0.00".

Definition render (r : report) : string := "{}".

Definition always_there (path : string) : bool := true.

Definition can_open (path : string) : result unit := Ok tt.

Definition run_main (argv : list string) : run :=
  main show_score render always_there can_open "all_func.py"
    Sample.identity Sample.shop_read Sample.shop_parse argv.

(** The report of the analysis of [shop.py]. *)
Definition shop_report : report :=
  Results
    [{| name := "Helper";
        relevance_score := 0;
        reasons := [too_generic; wrong_name];
        suggestion := Some "Consider: Load" |}]
    [{| name := "calculate_total";
        relevance_score := 3 # 4;
        reasons := [reflects_well];
        suggestion := None |}]
    (3 # 8).

End SampleApp.

(** ** Rational arithmetic *)

Lemma Qltb_lt (x y : Q) : Qltb x y = true <-> (x < y)%Q.
Proof.
  unfold Qltb. rewrite negb_true_iff. split; intro H.
  - apply Qnot_le_lt. intro L. apply Qle_bool_iff in L. congruence.
  - destruct (Qle_bool y x) eqn:E; [|reflexivity].
    apply Qle_bool_iff in E. exfalso. exact (Qlt_not_le _ _ H E).
Qed.

Lemma Qltb_ge (x y : Q) : Qltb x y = false <-> (y <= x)%Q.
Proof.
  unfold Qltb. rewrite negb_false_iff. apply Qle_bool_iff.
Qed.

Lemma clamp_bounds (s : Q) : (0 <= clamp s)%Q /\ (clamp s <= 1)%Q.
Proof.
  unfold clamp, py_max, py_min.
  destruct (Qltb s 1) eqn:E1.
  - destruct (Qltb 0 s) eqn:E0.
    + apply Qltb_lt in E0, E1. split; apply Qlt_le_weak; assumption.
    + split; [apply Qle_refl | discriminate].
  - destruct (Qltb 0 1) eqn:E0; [|discriminate E0].
    split; [discriminate | apply Qle_refl].
Qed.

Lemma fold_left_Qplus (xs : list Q) :
  forall acc, (fold_left Qplus xs acc == acc + Spec.total xs)%Q.
Proof.
  induction xs as [|x xs IH]; intro acc; simpl.
  - ring.
  - rewrite IH. ring.
Qed.

Lemma sum_total (xs : list Q) : (sum xs == Spec.total xs)%Q.
Proof.
  unfold sum. rewrite fold_left_Qplus. ring.
Qed.

(** ** Strings *)

Lemma lower_char_idem (c : ascii) :
  Str.lower_char (Str.lower_char c) = Str.lower_char c.
Proof.
  destruct c as [[] [] [] [] [] [] [] []]; reflexivity.
Qed.

Lemma lower_idem (s : string) : Str.lower (Str.lower s) = Str.lower s.
Proof.
  induction s as [|c s IH]; simpl; [reflexivity|].
  now rewrite lower_char_idem, IH.
Qed.

Lemma append_assoc (a b c : string) :
  ((a ++ b) ++ c)%string = (a ++ (b ++ c))%string.
Proof.
  induction a as [|x a IH]; simpl; [reflexivity | now rewrite IH].
Qed.

(** ** The name splitter *)

Lemma upper_segments_attach (c : ascii) (rest : string) :
  Spec.upper_segments (String c rest) = attach (String c EmptyString) rest.
Proof.
  unfold attach. simpl.
  destruct (Spec.starts_upper rest); [reflexivity|].
  destruct (Spec.upper_segments rest); reflexivity.
Qed.

Lemma split_loop_attach (rest : string) :
  forall parts current,
    Str.truthy current = true ->
    finish (split_loop rest parts current)
    = parts ++ map Str.lower (attach current rest).
Proof.
  induction rest as [|ch r IH]; intros parts current Hc.
  - simpl. rewrite Hc. reflexivity.
  - simpl split_loop. rewrite Hc, andb_true_r.
    destruct (Str.isupper ch) eqn:Hu.
    + rewrite IH by reflexivity.
      rewrite <- upper_segments_attach.
      unfold attach at 1. simpl Spec.starts_upper. rewrite Hu.
      simpl map. rewrite <- app_assoc. reflexivity.
    + rewrite IH by (destruct current; [discriminate | reflexivity]).
      f_equal. f_equal.
      unfold attach at 2. simpl Spec.starts_upper. rewrite Hu.
      rewrite upper_segments_attach.
      unfold attach.
      destruct (Spec.starts_upper r).
      * simpl. reflexivity.
      * destruct (Spec.upper_segments r); simpl.
        -- reflexivity.
        -- now rewrite append_assoc.
Qed.

Lemma split_name_camel (name : string) :
  Str.contains_char "_" name = false ->
  _split_name name = map Str.lower (Spec.upper_segments name).
Proof.
  intro Hn. unfold _split_name. rewrite Hn.
  change (finish (split_loop name [] EmptyString)
          = map Str.lower (Spec.upper_segments name)).
  destruct name as [|c rest]; [reflexivity|].
  simpl split_loop. rewrite andb_false_r.
  rewrite split_loop_attach by reflexivity.
  now rewrite upper_segments_attach.
Qed.

Lemma split_loop_lowered (name : string) :
  forall parts current,
    Forall (fun p => Str.lower p = p) parts ->
    Forall (fun p => Str.lower p = p) (finish (split_loop name parts current)).
Proof.
  induction name as [|ch r IH]; intros parts current Hp; simpl split_loop.
  - simpl. destruct (Str.truthy current); [|assumption].
    apply Forall_app. split; [assumption|].
    constructor; [apply lower_idem | constructor].
  - destruct (Str.isupper ch && Str.truthy current); apply IH; [|assumption].
    apply Forall_app. split; [assumption|].
    constructor; [apply lower_idem | constructor].
Qed.

Lemma split_name_lowered (name : string) :
  Forall (fun p => Str.lower p = p) (_split_name name).
Proof.
  unfold _split_name. destruct (Str.contains_char "_" name).
  - apply Forall_forall. intros p Hp. apply in_map_iff in Hp.
    destruct Hp as [q [<- _]]. apply lower_idem.
  - apply (split_loop_lowered name [] EmptyString). constructor.
Qed.

Lemma filtered_parts_lowered (name : string) :
  Forall (fun p => Str.lower p = p) (filtered_parts name).
Proof.
  unfold filtered_parts. apply Forall_forall. intros p Hp.
  apply filter_In in Hp. destruct Hp as [Hp _].
  exact (proj1 (Forall_forall _ _) (split_name_lowered name) p Hp).
Qed.

(** C7: the name splitter returns lowercase tokens in left-to-right order; it
    gives [get; user; name] on "get_user_name" and on "GetUserName", [x] on
    "x", and on a name without delimiter it starts a new token at every
    uppercase character after the first character, so that "HTTPServer" is cut
    at every capital. *)
Theorem C7_split_name :
  _split_name "get_user_name" = ["get"; "user"; "name"] /\
  _split_name "GetUserName" = ["get"; "user"; "name"] /\
  _split_name "x" = ["x"] /\
  _split_name "HTTPServer" = ["h"; "t"; "t"; "p"; "server"] /\
  (forall name, Forall (fun p => Str.lower p = p) (_split_name name)) /\
  (forall name,
      Str.contains_char "_" name = false ->
      _split_name name = map Str.lower (Spec.upper_segments name)).
Proof.
  repeat split; try reflexivity.
  - apply split_name_lowered.
  - apply split_name_camel.
Qed.

Lemma C7_split_name_witness :
  Str.contains_char "_" "parseHTTPHeader" = false /\
  _split_name "parseHTTPHeader"
  = map Str.lower (Spec.upper_segments "parseHTTPHeader") /\
  _split_name "parseHTTPHeader" = ["parse"; "h"; "t"; "t"; "p"; "header"].
Proof.
  split; [reflexivity|].
  split; [|reflexivity].
  apply (proj2 (proj2 (proj2 (proj2 (proj2 C7_split_name))))).
  reflexivity.
Defined.

(** ** The model on small inputs *)

Example findall_long_words_ex :
  Re.findall_long_words "load the user_name, then save it: data9 foo bar-baz"
  = ["load"; "the"; "then"; "save"; "foo"; "bar"; "baz"].
Proof. reflexivity. Qed.

Example search_word_ex :
  Re.search_word "user" "Load USER data" = true /\
  Re.search_word "user" "load username" = false /\
  Re.search_word "user" "the_user" = false.
Proof. repeat split; reflexivity. Qed.

Example split_name_dunder : _split_name "__init__" = ["init"].
Proof. reflexivity. Qed.

Example suggestion_pascal :
  _generate_suggestion "Helper" "Load the data; load the file. data load"
  = Ok "Consider: LoadDataFile".
Proof. reflexivity. Qed.

Example suggestion_no_words :
  _generate_suggestion "do_it" "return self and none"
  = Ok "Consider adding a clear docstring to help determine a better name".
Proof. reflexivity. Qed.

Example relevance_short_name :
  _calculate_relevance "x" "y = 1"
  = (0%Q, ["Name is too short"; wrong_name]).
Proof. reflexivity. Qed.

Example function_summary_ex :
  function_summary Sample.identity (Some Sample.shop_code)
    (FunctionDef 4 "calculate_total" [] 4 6)
  = " def calculate_total(items):     total = sum(items)     return total".
Proof. reflexivity. Qed.

Example methods_of_client : methods_of Sample.client_class = ["close"].
Proof. reflexivity. Qed.

Example analyze_shop :
  analyze_file Sample.identity Sample.shop_read Sample.shop_parse "shop.py"
  = Ok (Results
          [{| name := "Helper";
              relevance_score := 0;
              reasons := ["Name is too generic"; wrong_name];
              suggestion := Some "Consider: Load" |}]
          [{| name := "calculate_total";
              relevance_score := 3 # 4;
              reasons := [reflects_well];
              suggestion := None |}]
          (3 # 8)).
Proof. vm_compute. reflexivity. Qed.

(** ** The relevance scorer *)

Lemma count_part_credit (implementation part : string) (acc : Q) :
  Str.lower part = part ->
  (count_part implementation acc part
   == acc + Spec.token_credit implementation part)%Q.
Proof.
  intro Hl. unfold count_part, Spec.token_credit. rewrite Hl.
  destruct ((2 <? String.length part) && Re.search_word part implementation).
  - reflexivity.
  - destruct (Str.contains part (Str.lower implementation)).
    + reflexivity.
    + ring.
Qed.

Lemma found_parts_total (implementation : string) (parts : list string) :
  Forall (fun p => Str.lower p = p) parts ->
  forall acc,
    (fold_left (count_part implementation) parts acc
     == acc + Spec.total (map (Spec.token_credit implementation) parts))%Q.
Proof.
  induction 1 as [|p parts Hp _ IH]; intro acc; simpl.
  - ring.
  - rewrite IH, (count_part_credit _ _ _ Hp). ring.
Qed.

(** C3: when the filtered token list of a name is not empty, the base score
    is the sum over the filtered tokens of 1 for a token longer than 2 that
    occurs in the implementation as a whole word (ignoring case), else 1/2
    for a token that occurs in it as a substring (ignoring case), else 0,
    divided by the number of filtered tokens. *)
Theorem C3_base_score (name implementation : string) :
  filtered_parts name <> [] ->
  (fst (base_score name implementation)
   == Spec.total (map (Spec.token_credit implementation) (filtered_parts name))
      / Qlen (filtered_parts name))%Q.
Proof.
  intro Hne. unfold base_score.
  pose proof (filtered_parts_lowered name) as Hl.
  destruct (filtered_parts name) as [|p ps] eqn:E; [contradiction|].
  cbn [fst]. unfold found_parts_of.
  rewrite (found_parts_total implementation (p :: ps) Hl 0%Q).
  apply Qdiv_comp; [ring | reflexivity].
Qed.

Lemma C3_base_score_witness :
  filtered_parts "get_user_id" <> [] /\
  (fst (base_score "get_user_id" "Load the USER record by its identifier")
   == Spec.total
        (map (Spec.token_credit "Load the USER record by its identifier")
             (filtered_parts "get_user_id"))
      / Qlen (filtered_parts "get_user_id"))%Q /\
  (fst (base_score "get_user_id" "Load the USER record by its identifier")
   == 3 # 4)%Q.
Proof.
  split; [discriminate|].
  split; [|reflexivity].
  apply (C3_base_score "get_user_id" "Load the USER record by its identifier").
  discriminate.
Defined.

Lemma adjusted_reasons_last (name implementation : string) :
  snd (_calculate_relevance name implementation)
  = snd (adjusted_score name implementation)
    ++ [classification (fst (adjusted_score name implementation))].
Proof.
  unfold _calculate_relevance.
  destruct (adjusted_score name implementation) as [score reasons].
  reflexivity.
Qed.

Lemma calculate_relevance_score (name implementation : string) :
  fst (_calculate_relevance name implementation)
  = clamp (fst (adjusted_score name implementation)).
Proof.
  unfold _calculate_relevance.
  destruct (adjusted_score name implementation) as [score reasons].
  reflexivity.
Qed.

Lemma classification_bands (score : Q) :
  In (classification score) Spec.classification_strings /\
  ((score < 3 # 10)%Q -> classification score = wrong_name) /\
  ((3 # 10 <= score)%Q -> (score < 5 # 10)%Q ->
   classification score = consider_changing) /\
  ((5 # 10 <= score)%Q -> (score < 6 # 10)%Q ->
   classification score = needs_improvement) /\
  ((6 # 10 <= score)%Q -> (score < 7 # 10)%Q ->
   classification score = reflects_good) /\
  ((7 # 10 <= score)%Q -> classification score = reflects_well).
Proof.
  unfold classification, Spec.classification_strings.
  destruct (Qltb score (3 # 10)) eqn:E3;
    [|destruct (Qltb score (5 # 10)) eqn:E5;
      [|destruct (Qltb score (6 # 10)) eqn:E6;
        [|destruct (Qltb score (7 # 10)) eqn:E7]]];
  repeat match goal with
         | H : Qltb _ _ = true |- _ => apply Qltb_lt in H
         | H : Qltb _ _ = false |- _ => apply Qltb_ge in H
         end;
  (split; [simpl; tauto|]);
  repeat split; intros;
  try reflexivity;
  exfalso; destruct score as [n d]; unfold Qlt, Qle in *; simpl in *; lia.
Qed.

(** C4: the reasons returned by the scorer are never empty; their last
    element is one of the five classification strings, the one of the first
    band, among [< 0.3], [< 0.5], [< 0.6], [< 0.7] and the rest, that holds the
    score as it is before the clamp. *)
Theorem C4_classification_reason (name implementation : string) :
  let pre := fst (adjusted_score name implementation) in
  let reasons := snd (_calculate_relevance name implementation) in
  reasons <> [] /\
  In (last reasons EmptyString) Spec.classification_strings /\
  ((pre < 3 # 10)%Q -> last reasons EmptyString = wrong_name) /\
  ((3 # 10 <= pre)%Q -> (pre < 5 # 10)%Q ->
   last reasons EmptyString = consider_changing) /\
  ((5 # 10 <= pre)%Q -> (pre < 6 # 10)%Q ->
   last reasons EmptyString = needs_improvement) /\
  ((6 # 10 <= pre)%Q -> (pre < 7 # 10)%Q ->
   last reasons EmptyString = reflects_good) /\
  ((7 # 10 <= pre)%Q -> last reasons EmptyString = reflects_well).
Proof.
  cbv zeta. rewrite adjusted_reasons_last, last_last.
  split; [|apply classification_bands].
  intro H. apply app_eq_nil in H. destruct H as [_ H]. discriminate H.
Qed.

(** C5: the score returned by the scorer lies between 0 and 1, also when the
    penalties bring the score below 0 before the clamp. *)
Theorem C5_score_bounds (name implementation : string) :
  (0 <= fst (_calculate_relevance name implementation))%Q /\
  (fst (_calculate_relevance name implementation) <= 1)%Q.
Proof.
  rewrite calculate_relevance_score. apply clamp_bounds.
Qed.

(** ** The walk over the tree *)

Lemma walk_queue_nil (fuel : nat) : Ast.walk_queue fuel [] = [].
Proof. destruct fuel; reflexivity. Qed.

Lemma queue_weight_app (q1 q2 : list node) :
  Ast.queue_weight (q1 ++ q2) = Ast.queue_weight q1 + Ast.queue_weight q2.
Proof.
  unfold Ast.queue_weight. now rewrite map_app, list_sum_app.
Qed.

Lemma weight_children (n : node) :
  Ast.weight n = S (Ast.queue_weight (Ast.iter_child_nodes n)).
Proof.
  destruct n as [o b|o nm b|o nm b l e|o nm b|o ts|o v|o b rest];
    try reflexivity.
  destruct b as [b|]; cbn [Ast.weight Ast.iter_child_nodes Ast.body Ast.attr_body].
  - now rewrite queue_weight_app.
  - reflexivity.
Qed.

(** The fuel given by [walk] is enough: more fuel changes nothing. *)
Lemma walk_queue_fuel (fuel : nat) :
  forall todo,
    Ast.queue_weight todo <= fuel ->
    Ast.walk_queue fuel todo = Ast.walk_queue (Ast.queue_weight todo) todo.
Proof.
  induction fuel as [|fuel IH]; intros todo Hw.
  - destruct todo as [|n todo]; [reflexivity|].
    unfold Ast.queue_weight in Hw. simpl in Hw.
    rewrite weight_children in Hw. lia.
  - destruct todo as [|n todo]; [reflexivity|].
    assert (Hq : Ast.queue_weight (n :: todo)
                 = S (Ast.queue_weight (todo ++ Ast.iter_child_nodes n))).
    { rewrite queue_weight_app. unfold Ast.queue_weight at 1. simpl.
      rewrite weight_children. unfold Ast.queue_weight. lia. }
    rewrite Hq. simpl. f_equal. apply IH. lia.
Qed.

(** The walk yields every node exactly once. *)
Lemma walk_queue_length (fuel : nat) :
  forall todo,
    Ast.queue_weight todo <= fuel ->
    List.length (Ast.walk_queue fuel todo) = Ast.queue_weight todo.
Proof.
  induction fuel as [|fuel IH]; intros todo Hw.
  - destruct todo as [|n todo]; [reflexivity|].
    unfold Ast.queue_weight in Hw. simpl in Hw.
    rewrite weight_children in Hw. lia.
  - destruct todo as [|n todo]; [reflexivity|].
    assert (Hq : Ast.queue_weight (n :: todo)
                 = S (Ast.queue_weight (todo ++ Ast.iter_child_nodes n))).
    { rewrite queue_weight_app. unfold Ast.queue_weight at 1. simpl.
      rewrite weight_children. unfold Ast.queue_weight. lia. }
    rewrite Hq. simpl. f_equal. apply IH. lia.
Qed.

Lemma walk_length (tree : node) :
  List.length (Ast.walk tree) = Ast.weight tree.
Proof.
  unfold Ast.walk. rewrite walk_queue_length.
  - unfold Ast.queue_weight. simpl. lia.
  - unfold Ast.queue_weight. simpl. lia.
Qed.

(** The walk reaches the nodes of every depth. *)
Lemma walk_queue_complete (fuel : nat) :
  forall todo,
    Ast.queue_weight todo <= fuel ->
    forall m n,
      In m todo -> descendant n m -> In n (Ast.walk_queue fuel todo).
Proof.
  induction fuel as [|fuel IH]; intros todo Hw m n Hm Hd.
  - destruct todo as [|m0 todo]; [contradiction|].
    unfold Ast.queue_weight in Hw. simpl in Hw.
    rewrite weight_children in Hw. lia.
  - destruct todo as [|m0 todo]; [contradiction|].
    assert (Hq : Ast.queue_weight (todo ++ Ast.iter_child_nodes m0) <= fuel).
    { rewrite queue_weight_app. unfold Ast.queue_weight in *. simpl in Hw.
      rewrite weight_children in Hw. unfold Ast.queue_weight in Hw. lia. }
    simpl. destruct Hm as [<-|Hm].
    + destruct Hd as [|c m1 Hc Hd]; [now left|].
      right. apply (IH _ Hq c n); [|assumption].
      apply in_or_app. now right.
    + right. apply (IH _ Hq m n); [|assumption].
      apply in_or_app. now left.
Qed.

Lemma walk_complete (tree n : node) :
  descendant n tree -> In n (Ast.walk tree).
Proof.
  intro Hd. unfold Ast.walk.
  apply (walk_queue_complete _ [tree]) with (m := tree);
    [|now left|assumption].
  unfold Ast.queue_weight. simpl. lia.
Qed.

Lemma names_ok_children (n : node) :
  names_ok n = true -> forallb names_ok (Ast.iter_child_nodes n) = true.
Proof.
  destruct n as [o b|o nm b|o nm b l e|o nm b|o ts|o v|o b rest];
    cbn [names_ok Ast.iter_child_nodes Ast.body Ast.attr_body]; intro H;
    try (apply andb_true_iff in H; destruct H as [H1 H2]);
    try assumption; try reflexivity.
  rewrite forallb_app, H2, andb_true_r.
  destruct b; [assumption | reflexivity].
Qed.

Lemma names_ok_name (n : node) :
  names_ok n = true ->
  Ast.isClassDef n || Ast.isFunctionDef n = true ->
  Str.truthy (Ast.name n) = true.
Proof.
  destruct n; simpl; intros H Hk; try discriminate;
    apply andb_true_iff in H; tauto.
Qed.

Lemma walk_queue_names_ok (fuel : nat) :
  forall todo,
    forallb names_ok todo = true ->
    Forall (fun n => names_ok n = true) (Ast.walk_queue fuel todo).
Proof.
  induction fuel as [|fuel IH]; intros todo H; simpl; [constructor|].
  destruct todo as [|n todo]; [constructor|].
  simpl in H. apply andb_true_iff in H. destruct H as [Hn Ht].
  constructor; [assumption|].
  apply IH. rewrite forallb_app, Ht. now apply names_ok_children.
Qed.

Lemma walk_names_ok (tree : node) :
  names_ok tree = true -> Forall (fun n => names_ok n = true) (Ast.walk tree).
Proof.
  intro H. apply walk_queue_names_ok. simpl. now rewrite H.
Qed.

(** ** Class attributes and the method test *)

Lemma targets_fold (targets : list expr) :
  forall acc,
    fold_left
      (fun attributes target =>
         match target with
         | Name id => attributes ++ [id]
         | _ => attributes
         end)
      targets acc
    = acc ++ Spec.target_names targets.
Proof.
  induction targets as [|t ts IH]; intro acc; simpl.
  - now rewrite app_nil_r.
  - rewrite IH. destruct t; simpl; try reflexivity.
    now rewrite <- app_assoc.
Qed.

Lemma attributes_fold (stmts : list node) :
  forall acc,
    fold_left
      (fun attributes n =>
         match n with
         | Assign _ targets =>
             fold_left
               (fun attributes target =>
                  match target with
                  | Name id => attributes ++ [id]
                  | _ => attributes
                  end)
               targets attributes
         | _ => attributes
         end)
      stmts acc
    = acc ++ flat_map
               (fun n =>
                  match n with
                  | Assign _ targets => Spec.target_names targets
                  | _ => []
                  end)
               stmts.
Proof.
  induction stmts as [|s ss IH]; intro acc; simpl.
  - now rewrite app_nil_r.
  - rewrite IH. destruct s; simpl; try reflexivity.
    now rewrite targets_fold, <- app_assoc.
Qed.

Lemma target_names_In (x : string) (targets : list expr) :
  In x (Spec.target_names targets) <-> In (Name x) targets.
Proof.
  unfold Spec.target_names. rewrite in_flat_map. split.
  - intros [t [Ht Hx]]. destruct t; simpl in Hx; try contradiction.
    destruct Hx as [<-|[]]. assumption.
  - intro H. exists (Name x). split; [assumption | now left].
Qed.

(** A function in the body of a class that stands at module level is
    recognised as a method. *)
Lemma is_method_top_level (tree cls fn : node) :
  In cls (Ast.iter_child_nodes tree) ->
  Ast.isClassDef cls = true ->
  In fn (Ast.body cls) ->
  _is_method tree fn = true.
Proof.
  intros Hc Hk Hf. unfold _is_method. apply existsb_exists.
  exists cls. split; [|assumption].
  apply filter_In. split; [assumption|].
  destruct cls; try discriminate. simpl in *.
  unfold Ast.node_in. apply existsb_exists.
  exists fn. split; [assumption | apply Nat.eqb_refl].
Qed.

(** C1: a method is never scored as a function, however deep its class is
    nested.  The detector breaks this: the method test looks only at the
    classes that stand at module level, so that the method of a class inside
    a class is reported among the functions.  Evaluated on
<<
class Outer:
    class Inner:
        def method(self):
            return 1
>> *)
Theorem C1_nested_method_is_scored (cleandoc : string -> string) :
  In Sample.inner_class (Ast.walk Sample.nested_tree) /\
  Ast.isClassDef Sample.inner_class = true /\
  In Sample.method_node (Ast.body Sample.inner_class) /\
  _is_method Sample.nested_tree Sample.method_node = false /\
  exists e,
    _analyze_functions cleandoc (Some Sample.nested_code) Sample.nested_tree
    = Ok [e] /\
    name e = "method".
Proof.
  split; [simpl; tauto|].
  split; [reflexivity|].
  split; [simpl; tauto|].
  split; [reflexivity|].
  eexists. split; [vm_compute; reflexivity | reflexivity].
Qed.

(** C2 as stated fails: both targets of the chained assignment
    [width = height = 0] become attribute names. *)
Lemma C2_chained_assignment_counts :
  _extract_class_attributes Sample.box_class = ["width"; "height"; "depth"] /\
  Spec.single_target_names Sample.box_class = ["depth"] /\
  _extract_class_attributes Sample.box_class
  <> Spec.single_target_names Sample.box_class.
Proof.
  split; [reflexivity|]. split; [reflexivity|]. discriminate.
Qed.

(** C2, amended: the attribute names of a class summary are the simple name
    targets of the assignment statements at the top level of the class body,
    every target of a chained assignment included, in order; tuple targets
    and other targets give no name. *)
Theorem C2_class_attributes (cls : node) :
  _extract_class_attributes cls = Spec.assigned_names cls /\
  (forall x,
      In x (_extract_class_attributes cls) <->
      exists o targets,
        In (Assign o targets) (Ast.body cls) /\ In (Name x) targets) /\
  (forall o nm o' elts,
      _extract_class_attributes (ClassDef o nm [Assign o' [Tuple elts]]) = []).
Proof.
  assert (E : _extract_class_attributes cls = Spec.assigned_names cls).
  { unfold _extract_class_attributes. now rewrite attributes_fold. }
  split; [exact E|]. split; [|reflexivity].
  intro x. rewrite E. unfold Spec.assigned_names. rewrite in_flat_map. split.
  - intros [n [Hn Hx]]. destruct n; try contradiction.
    apply target_names_In in Hx. eauto.
  - intros [o [targets [Hn Hx]]]. exists (Assign o targets).
    split; [assumption | now apply target_names_In].
Qed.

(** ** The loops of the analysis *)

Lemma generate_suggestion_ok (original_name implementation : string) :
  Str.truthy original_name = true ->
  exists s, _generate_suggestion original_name implementation = Ok s.
Proof.
  intro Hn. unfold _generate_suggestion.
  destruct (map fst _) as [|first others]; [eauto|].
  destruct (Str.contains_char "_" original_name); [eauto|].
  destruct original_name as [|c rest]; [discriminate|].
  simpl. destruct (Str.isupper c); eauto.
Qed.

Lemma make_entry_ok (entity_name impl_summary : string) :
  Str.truthy entity_name = true ->
  exists e, make_entry entity_name impl_summary = Ok e /\ suggestion_rule e.
Proof.
  intro Hn. unfold make_entry.
  destruct (_calculate_relevance entity_name impl_summary) as [score rs].
  destruct (Qltb score (7 # 10)) eqn:E.
  - destruct (generate_suggestion_ok entity_name impl_summary Hn) as [s Hs].
    rewrite Hs. simpl. eexists. split; [reflexivity|].
    unfold suggestion_rule. simpl. apply Qltb_lt in E. split.
    + intro H. exfalso. exact (Qlt_not_le _ _ E H).
    + intros _. eauto.
  - simpl. eexists. split; [reflexivity|].
    unfold suggestion_rule. simpl. apply Qltb_ge in E. split.
    + reflexivity.
    + intro H. exfalso. exact (Qlt_not_le _ _ H E).
Qed.

Section Loops.

Variable cleandoc : string -> string.

Lemma classes_loop_ok (nodes : list node) :
  Forall (fun n => names_ok n = true) nodes ->
  forall acc,
    Forall suggestion_rule acc ->
    exists es,
      classes_loop cleandoc nodes acc = Ok es /\ Forall suggestion_rule es.
Proof.
  induction 1 as [|n nodes Hn _ IH]; intros acc Hacc; simpl; [eauto|].
  destruct (Ast.isClassDef n) eqn:Hk; [|now apply IH].
  destruct (make_entry_ok (Ast.name n) (class_summary cleandoc n))
    as [e [He Hr]].
  { apply names_ok_name; [assumption | now rewrite Hk]. }
  rewrite He. simpl. apply IH.
  apply Forall_app. split; [assumption | now constructor].
Qed.

Lemma functions_loop_ok (code : option string) (tree : node)
  (nodes : list node) :
  Forall (fun n => names_ok n = true) nodes ->
  forall acc,
    Forall suggestion_rule acc ->
    exists es,
      functions_loop cleandoc code tree nodes acc = Ok es /\
      Forall suggestion_rule es.
Proof.
  induction 1 as [|n nodes Hn _ IH]; intros acc Hacc; simpl; [eauto|].
  destruct (Ast.isFunctionDef n && negb (_is_method tree n)) eqn:Hk;
    [|now apply IH].
  apply andb_true_iff in Hk. destruct Hk as [Hk _].
  destruct (make_entry_ok (Ast.name n) (function_summary cleandoc code n))
    as [e [He Hr]].
  { apply names_ok_name; [assumption | now rewrite Hk, orb_true_r]. }
  rewrite He. simpl. apply IH.
  apply Forall_app. split; [assumption | now constructor].
Qed.

(** The loop over the functions passes over coroutines. *)
Lemma functions_loop_skips_async (code : option string) (tree : node)
  (nodes : list node) :
  forall acc,
    functions_loop cleandoc code tree nodes acc
    = functions_loop cleandoc code tree (filter not_async nodes) acc.
Proof.
  induction nodes as [|n nodes IH]; intro acc; [reflexivity|].
  simpl. destruct n; simpl;
    try (destruct (negb (_is_method tree _)); simpl;
         [destruct (make_entry _ _); simpl|]);
    auto.
Qed.

(** A tree that was parsed is analysed to the end. *)
Lemma analyze_results (self : detector) (t : node) :
  tree self = Some t ->
  names_ok t = true ->
  exists classes functions,
    analyze cleandoc self
    = Ok (Results classes functions
            (match map relevance_score classes
                   ++ map relevance_score functions with
             | [] => 0%Q
             | _ :: _ =>
                 (sum (map relevance_score classes
                       ++ map relevance_score functions)
                  / Qlen (map relevance_score classes
                          ++ map relevance_score functions))%Q
             end)) /\
    Forall suggestion_rule (classes ++ functions).
Proof.
  intros Ht Hok. unfold analyze. rewrite Ht.
  pose proof (walk_names_ok t Hok) as Hw.
  destruct (classes_loop_ok (Ast.walk t) Hw [] (Forall_nil _))
    as [classes [Hc Hcr]].
  destruct (functions_loop_ok (code self) t (Ast.walk t) Hw [] (Forall_nil _))
    as [functions [Hf Hfr]].
  unfold _analyze_classes, _analyze_functions. rewrite Hc, Hf. simpl.
  exists classes, functions. split; [reflexivity|].
  apply Forall_app. split; assumption.
Qed.

Variable read_file : string -> result string.
Variable ast_parse : string -> result node.

Lemma init_loaded (path text : string) (t : node) :
  read_file path = Ok text ->
  ast_parse text = Ok t ->
  tree (fst (__init__ read_file ast_parse path)) = Some t.
Proof.
  intros Hr Hp. unfold __init__, load_file. simpl. now rewrite Hr, Hp.
Qed.

Lemma init_failed (path : string) :
  load_fails read_file ast_parse path ->
  tree (fst (__init__ read_file ast_parse path)) = None.
Proof.
  unfold __init__, load_file. simpl.
  intros [[e Hr]|[text [e [Hr Hp]]]].
  - now rewrite Hr.
  - now rewrite Hr, Hp.
Qed.

(** C6: for a file that is read and parsed, the overall score of the report
    is the arithmetic mean of the scores of all reported classes and
    functions together, and 0 when none is reported. *)
Theorem C6_overall_score (path text : string) (t : node) :
  read_file path = Ok text ->
  ast_parse text = Ok t ->
  names_ok t = true ->
  exists classes functions overall,
    analyze_file cleandoc read_file ast_parse path
    = Ok (Results classes functions overall) /\
    (classes = [] -> functions = [] -> overall = 0%Q) /\
    (classes ++ functions <> [] ->
     (overall == Spec.mean (map relevance_score (classes ++ functions)))%Q).
Proof.
  intros Hr Hp Hok. unfold analyze_file.
  destruct (analyze_results _ t (init_loaded path text t Hr Hp) Hok)
    as [classes [functions [Ha _]]].
  rewrite Ha. eexists classes, functions, _. split; [reflexivity|]. split.
  - intros -> ->. reflexivity.
  - intro Hne. rewrite map_app. unfold Spec.mean.
    destruct (map relevance_score classes ++ map relevance_score functions)
      as [|x xs] eqn:E.
    + exfalso. apply Hne. rewrite <- map_app in E.
      now apply map_eq_nil in E.
    + now rewrite sum_total.
Qed.

(** C8: in a report, an entity with a score of 0.7 or more has no suggestion,
    and an entity with a score below 0.7 has a suggestion string. *)
Theorem C8_suggestion_presence (path text : string) (t : node) :
  read_file path = Ok text ->
  ast_parse text = Ok t ->
  names_ok t = true ->
  exists classes functions overall,
    analyze_file cleandoc read_file ast_parse path
    = Ok (Results classes functions overall) /\
    forall e,
      In e (classes ++ functions) ->
      ((7 # 10 <= relevance_score e)%Q -> suggestion e = None) /\
      ((relevance_score e < 7 # 10)%Q -> exists s, suggestion e = Some s).
Proof.
  intros Hr Hp Hok. unfold analyze_file.
  destruct (analyze_results _ t (init_loaded path text t Hr Hp) Hok)
    as [classes [functions [Ha Hrule]]].
  rewrite Ha. eexists classes, functions, _. split; [reflexivity|].
  intros e He. exact (proj1 (Forall_forall _ _) Hrule e He).
Qed.

(** C9: when the file cannot be read or cannot be parsed, the analysis ends
    without an exception and returns a dictionary whose only key is [error];
    no class, function or overall score is in it. *)
Theorem C9_load_failure (path : string) :
  load_fails read_file ast_parse path ->
  analyze_file cleandoc read_file ast_parse path
  = Ok (Error "Failed to parse the file") /\
  keys (Error "Failed to parse the file") = ["error"].
Proof.
  intro H. split; [|reflexivity].
  unfold analyze_file, analyze. now rewrite (init_failed path H).
Qed.

(** C10: a coroutine ([async def]) is never scored.  The functions of the
    report are those found when every coroutine node, at whatever depth, is
    left out of the walk, and the method names of a class summary are those
    found when the coroutines are left out of the class body. *)
Theorem C10_async_not_scored (code : option string) (t : node) :
  _analyze_functions cleandoc code t
  = functions_loop cleandoc code t (filter not_async (Ast.walk t)) [] /\
  (forall n acc,
      Ast.isAsyncFunctionDef n = true ->
      functions_loop cleandoc code t [n] acc = Ok acc) /\
  (forall cls,
      methods_of cls
      = map Ast.name
          (filter Ast.isFunctionDef (filter not_async (Ast.body cls)))) /\
  (forall cls n,
      In n (Ast.body cls) ->
      Ast.isAsyncFunctionDef n = true ->
      ~ In n (filter Ast.isFunctionDef (Ast.body cls))).
Proof.
  split; [apply functions_loop_skips_async|].
  split; [intros n acc Hn; destruct n; try discriminate; reflexivity|].
  split.
  - intro cls. unfold methods_of. f_equal.
    induction (Ast.body cls) as [|n b IH]; [reflexivity|].
    simpl. destruct n; simpl; congruence.
  - intros cls n _ Ha Hin. apply filter_In in Hin.
    destruct n; simpl in *; destruct Hin; discriminate.
Qed.

End Loops.

Lemma C6_overall_score_witness :
  exists classes functions overall,
    analyze_file Sample.identity Sample.shop_read Sample.shop_parse "shop.py"
    = Ok (Results classes functions overall) /\
    (classes = [] -> functions = [] -> overall = 0%Q) /\
    (classes ++ functions <> [] ->
     (overall == Spec.mean (map relevance_score (classes ++ functions)))%Q).
Proof.
  exact (C6_overall_score Sample.identity Sample.shop_read Sample.shop_parse
           "shop.py" Sample.shop_code Sample.shop_tree
           eq_refl eq_refl eq_refl).
Defined.

Lemma C8_suggestion_presence_witness :
  exists classes functions overall,
    analyze_file Sample.identity Sample.shop_read Sample.shop_parse "shop.py"
    = Ok (Results classes functions overall) /\
    forall e,
      In e (classes ++ functions) ->
      ((7 # 10 <= relevance_score e)%Q -> suggestion e = None) /\
      ((relevance_score e < 7 # 10)%Q -> exists s, suggestion e = Some s).
Proof.
  exact (C8_suggestion_presence Sample.identity Sample.shop_read
           Sample.shop_parse "shop.py" Sample.shop_code Sample.shop_tree
           eq_refl eq_refl eq_refl).
Defined.

Lemma C9_load_failure_witness :
  load_fails Sample.shop_read Sample.shop_parse "missing.py" /\
  analyze_file Sample.identity Sample.shop_read Sample.shop_parse "missing.py"
  = Ok (Error "Failed to parse the file").
Proof.
  assert (H : load_fails Sample.shop_read Sample.shop_parse "missing.py").
  { left. eexists. reflexivity. }
  split; [exact H|].
  exact (proj1 (C9_load_failure Sample.identity Sample.shop_read
                  Sample.shop_parse "missing.py" H)).
Defined.

(** ** Further properties of the name splitter *)

Lemma concat_cons (x : string) (xs : list string) :
  String.concat EmptyString (x :: xs)
  = (x ++ String.concat EmptyString xs)%string.
Proof.
  destruct xs as [|y ys]; simpl; [|reflexivity].
  induction x as [|c x IH]; simpl; [reflexivity | now rewrite <- IH].
Qed.

Lemma lower_append (a b : string) :
  Str.lower (a ++ b) = (Str.lower a ++ Str.lower b)%string.
Proof.
  induction a as [|c a IH]; simpl; [reflexivity | now rewrite IH].
Qed.

Lemma concat_map_lower (l : list string) :
  String.concat EmptyString (map Str.lower l)
  = Str.lower (String.concat EmptyString l).
Proof.
  induction l as [|x xs IH]; [reflexivity|].
  cbn [map]. now rewrite !concat_cons, lower_append, IH.
Qed.

Lemma concat_filter_truthy (l : list string) :
  String.concat EmptyString (filter Str.truthy l)
  = String.concat EmptyString l.
Proof.
  induction l as [|x xs IH]; [reflexivity|].
  cbn [filter]. destruct x as [|c x]; cbn [Str.truthy].
  - now rewrite concat_cons, IH.
  - now rewrite !concat_cons, IH.
Qed.

Lemma remove_char_append (c : ascii) (a b : string) :
  remove_char c (a ++ b) = (remove_char c a ++ remove_char c b)%string.
Proof.
  induction a as [|d a IH]; simpl; [reflexivity|].
  destruct (Ascii.eqb d c); simpl; now rewrite IH.
Qed.

Lemma remove_char_absent (c : ascii) (s : string) :
  Str.contains_char c s = false -> remove_char c s = s.
Proof.
  induction s as [|d s IH]; simpl; [reflexivity|].
  intro H. apply orb_false_iff in H. destruct H as [Hd Hs].
  now rewrite Hd, IH.
Qed.

Lemma contains_char_append (c : ascii) (a b : string) :
  Str.contains_char c (a ++ b)
  = Str.contains_char c a || Str.contains_char c b.
Proof.
  induction a as [|d a IH]; simpl; [reflexivity|].
  now rewrite IH, orb_assoc.
Qed.

Lemma split_acc_concat (sep : ascii) (s : string) :
  forall cur,
    Str.contains_char sep cur = false ->
    String.concat EmptyString (Str.split_acc sep s cur)
    = (cur ++ remove_char sep s)%string.
Proof.
  induction s as [|c s IH]; intros cur Hcur; simpl.
  - induction cur as [|d cur IHc]; simpl; [reflexivity|].
    simpl in Hcur. apply orb_false_iff in Hcur. now rewrite <- IHc.
  - destruct (Ascii.eqb c sep) eqn:E.
    + rewrite concat_cons, IH by reflexivity. reflexivity.
    + rewrite IH.
      * now rewrite append_assoc.
      * rewrite contains_char_append, Hcur. simpl. now rewrite E.
Qed.

Lemma split_acc_pieces (sep : ascii) (s : string) :
  forall cur p,
    Str.contains_char sep cur = false ->
    In p (Str.split_acc sep s cur) ->
    Str.contains_char sep p = false.
Proof.
  induction s as [|c s IH]; intros cur p Hcur Hp; simpl in Hp.
  - destruct Hp as [<-|[]]. assumption.
  - destruct (Ascii.eqb c sep) eqn:E.
    + destruct Hp as [<-|Hp]; [assumption|].
      now apply (IH EmptyString).
    + apply (IH (cur ++ String c EmptyString)%string); [|assumption].
      rewrite contains_char_append, Hcur. simpl. now rewrite E.
Qed.

Lemma lower_char_underscore (c : ascii) :
  Ascii.eqb (Str.lower_char c) "_" = Ascii.eqb c "_".
Proof.
  destruct c as [[] [] [] [] [] [] [] []]; reflexivity.
Qed.

Lemma lower_underscore (s : string) :
  Str.contains_char "_" (Str.lower s) = Str.contains_char "_" s.
Proof.
  induction s as [|c s IH]; simpl; [reflexivity|].
  now rewrite lower_char_underscore, IH.
Qed.

Lemma lower_truthy (s : string) : Str.truthy (Str.lower s) = Str.truthy s.
Proof. destruct s; reflexivity. Qed.

Lemma upper_segments_concat (name : string) :
  String.concat EmptyString (Spec.upper_segments name) = name.
Proof.
  induction name as [|c rest IH]; [reflexivity|].
  simpl. destruct (Spec.starts_upper rest).
  - now rewrite concat_cons, IH.
  - destruct (Spec.upper_segments rest) as [|seg segs].
    + simpl in IH. now rewrite <- IH.
    + rewrite concat_cons in IH. rewrite concat_cons. simpl. now rewrite IH.
Qed.

Lemma upper_segments_truthy (name : string) :
  Forall (fun p => Str.truthy p = true) (Spec.upper_segments name).
Proof.
  induction name as [|c rest IH]; [constructor|].
  simpl. destruct (Spec.starts_upper rest).
  - now constructor.
  - destruct (Spec.upper_segments rest) as [|seg segs].
    + now constructor.
    + inversion IH; subst. now constructor.
Qed.

Lemma concat_piece_char (c : ascii) (l : list string) (p : string) :
  In p l ->
  Str.contains_char c p = true ->
  Str.contains_char c (String.concat EmptyString l) = true.
Proof.
  induction l as [|x xs IH]; [contradiction|].
  intros [->|Hp] Hc; rewrite concat_cons, contains_char_append.
  - now rewrite Hc.
  - rewrite (IH Hp Hc). apply orb_true_r.
Qed.

Lemma split_name_concat (name : string) :
  String.concat EmptyString (_split_name name)
  = Str.lower (remove_char "_" name).
Proof.
  destruct (Str.contains_char "_" name) eqn:E.
  - unfold _split_name. rewrite E.
    rewrite concat_map_lower, concat_filter_truthy. f_equal.
    unfold Str.split. now rewrite split_acc_concat.
  - rewrite (split_name_camel name E), concat_map_lower,
      upper_segments_concat.
    now rewrite remove_char_absent.
Qed.

Lemma split_name_tokens (name p : string) :
  In p (_split_name name) ->
  Str.truthy p = true /\ Str.contains_char "_" p = false.
Proof.
  destruct (Str.contains_char "_" name) eqn:E.
  - unfold _split_name. rewrite E. intro Hp.
    apply in_map_iff in Hp. destruct Hp as [q [<- Hq]].
    apply filter_In in Hq. destruct Hq as [Hq Ht].
    rewrite lower_truthy, lower_underscore. split; [assumption|].
    now apply (split_acc_pieces "_" name EmptyString).
  - rewrite (split_name_camel name E). intro Hp.
    apply in_map_iff in Hp. destruct Hp as [q [<- Hq]].
    rewrite lower_truthy, lower_underscore. split.
    + exact (proj1 (Forall_forall _ _) (upper_segments_truthy name) q Hq).
    + destruct (Str.contains_char "_" q) eqn:Eq; [|reflexivity].
      pose proof (concat_piece_char "_" _ q Hq Eq) as H.
      rewrite upper_segments_concat in H. congruence.
Qed.


(** X2: a name has no token at all exactly when it is made of underscores
    only (the empty name included). *)
Theorem split_name_empty_iff (name : string) :
  _split_name name = [] <-> remove_char "_" name = EmptyString.
Proof.
  pose proof (split_name_concat name) as Hc. split; intro H.
  - rewrite H in Hc. simpl in Hc.
    destruct (remove_char "_" name); [reflexivity | discriminate].
  - rewrite H in Hc. simpl in Hc.
    destruct (_split_name name) as [|p ps] eqn:E; [reflexivity|].
    assert (Hp : Str.truthy p = true).
    { apply (split_name_tokens name). rewrite E. now left. }
    rewrite concat_cons in Hc. destruct p; discriminate.
Qed.

(** ** Further properties of the relevance scorer *)

Lemma Qlen_cons {A : Type} (x : A) (xs : list A) :
  (Qlen (x :: xs) == 1 + Qlen xs)%Q.
Proof.
  unfold Qlen. cbn [List.length].
  rewrite Nat2Z.inj_succ, <- Z.add_1_l, inject_Z_plus. reflexivity.
Qed.

Lemma Qlen_nonneg {A : Type} (xs : list A) : (0 <= Qlen xs)%Q.
Proof.
  induction xs as [|x xs IH]; [apply Qle_refl|].
  rewrite Qlen_cons. lra.
Qed.

Lemma count_part_bounds (implementation part : string) (acc : Q) :
  (acc <= count_part implementation acc part)%Q /\
  (count_part implementation acc part <= acc + 1)%Q.
Proof.
  unfold count_part.
  destruct ((2 <? String.length part) && Re.search_word part implementation);
    [|destruct (Str.contains part (Str.lower implementation))];
    split; lra.
Qed.

Lemma found_parts_bounds (implementation : string) (parts : list string) :
  forall acc,
    (acc <= fold_left (count_part implementation) parts acc)%Q /\
    (fold_left (count_part implementation) parts acc <= acc + Qlen parts)%Q.
Proof.
  induction parts as [|p ps IH]; intro acc.
  - simpl. change (Qlen (@nil string)) with 0%Q. split; lra.
  - cbn [fold_left].
    destruct (IH (count_part implementation acc p)) as [H1 H2].
    destruct (count_part_bounds implementation p acc) as [H3 H4].
    rewrite Qlen_cons. split; lra.
Qed.

Lemma base_score_bounds (name implementation : string) :
  (0 <= fst (base_score name implementation))%Q /\
  (fst (base_score name implementation) <= 1)%Q.
Proof.
  unfold base_score, found_parts_of.
  destruct (filtered_parts name) as [|p ps]; cbn [fst]; [split; lra|].
  destruct (found_parts_bounds implementation (p :: ps) 0%Q) as [H1 H2].
  assert (Hpos : (0 < Qlen (p :: ps))%Q).
  { rewrite Qlen_cons. pose proof (Qlen_nonneg ps). lra. }
  split.
  - apply Qle_shift_div_l; [assumption | lra].
  - apply Qle_shift_div_r; [assumption | lra].
Qed.

Lemma lower_length (s : string) :
  String.length (Str.lower s) = String.length s.
Proof.
  induction s as [|c s IH]; simpl; [reflexivity | now rewrite IH].
Qed.

Lemma str_mem_In (s : string) (l : list string) :
  str_mem s l = true <-> In s l.
Proof.
  unfold str_mem. rewrite existsb_exists. split.
  - intros [x [Hx He]]. apply String.eqb_eq in He. now subst.
  - intro H. exists s. split; [assumption | apply String.eqb_refl].
Qed.

(** A generic name has at least four characters. *)
Lemma generic_not_short (name : string) :
  str_mem (Str.lower name) generic_names = true ->
  (String.length name <=? 2) = false.
Proof.
  intro H. apply str_mem_In in H. rewrite <- (lower_length name).
  simpl in H.
  repeat (destruct H as [<-|H]; [reflexivity|]). contradiction.
Qed.

Lemma adjusted_score_cases (name implementation : string) :
  let base := base_score name implementation in
  adjusted_score name implementation
  = if str_mem (Str.lower name) generic_names
    then ((fst base - (2 # 10))%Q, snd base ++ [too_generic])
    else if String.length name <=? 2
         then ((fst base - (3 # 10))%Q, snd base ++ [too_short])
         else base.
Proof.
  cbv zeta. unfold adjusted_score, generic_penalty, short_penalty.
  destruct (base_score name implementation) as [score reasons].
  destruct (str_mem (Str.lower name) generic_names) eqn:E.
  - now rewrite (generic_not_short name E).
  - destruct (String.length name <=? 2); reflexivity.
Qed.

Lemma clamp_nonneg (s : Q) : (0 <= s)%Q -> (s <= 1)%Q -> (clamp s == s)%Q.
Proof.
  intros H0 H1. unfold clamp, py_max, py_min.
  destruct (Qltb s 1) eqn:E1.
  - destruct (Qltb 0 s) eqn:E0; [reflexivity|].
    apply Qltb_ge in E0. lra.
  - apply Qltb_ge in E1. simpl. lra.
Qed.


(** X3: the two penalties never both apply; the score before the clamp lies
    between -0.3 and 1, so that the upper bound of the clamp is never needed;
    a score that is not negative before the clamp is returned as it is. *)
Theorem adjusted_score_range (name implementation : string) :
  let pre := fst (adjusted_score name implementation) in
  let reasons := snd (_calculate_relevance name implementation) in
  ~ (In too_generic reasons /\ In too_short reasons) /\
  (- (3 # 10) <= pre)%Q /\ (pre <= 1)%Q /\
  ((0 <= pre)%Q ->
   (fst (_calculate_relevance name implementation) == pre)%Q).
Proof.
  cbv zeta.
  pose proof (base_score_bounds name implementation) as [Hb0 Hb1].
  rewrite calculate_relevance_score, adjusted_reasons_last.
  pose proof (adjusted_score_cases name implementation) as Hc.
  cbv zeta in Hc. rewrite Hc. clear Hc.
  assert (Hbase : ~ In too_generic (snd (base_score name implementation)) /\
                  ~ In too_short (snd (base_score name implementation))).
  { unfold base_score. destruct (filtered_parts name); simpl; split;
      intuition discriminate. }
  destruct Hbase as [Hg Hs].
  assert (Hcl : forall s, ~ In too_generic [classification s] /\
                          ~ In too_short [classification s]).
  { intro s. unfold classification.
    repeat match goal with |- context [if ?b then _ else _] => destruct b end;
      split; intros [H|[]]; discriminate H. }
  destruct (str_mem (Str.lower name) generic_names);
    [|destruct (String.length name <=? 2)]; cbn [fst snd].
  - split.
    + intros [_ H]. apply in_app_or in H. destruct H as [H|H].
      * apply in_app_or in H. destruct H as [H|[H|[]]];
          [contradiction | discriminate H].
      * exact (proj2 (Hcl _) H).
    + split; [lra|]. split; [lra|]. intro H. apply clamp_nonneg; lra.
  - split.
    + intros [H _]. apply in_app_or in H. destruct H as [H|H].
      * apply in_app_or in H. destruct H as [H|[H|[]]];
          [contradiction | discriminate H].
      * exact (proj1 (Hcl _) H).
    + split; [lra|]. split; [lra|]. intro H. apply clamp_nonneg; lra.
  - split.
    + intros [H _]. apply in_app_or in H. destruct H as [H|H].
      * contradiction.
      * exact (proj1 (Hcl _) H).
    + split; [lra|]. split; [lra|]. intro H. apply clamp_nonneg; lra.
Qed.













Lemma filter_nil_all {A : Type} (f : A -> bool) (l : list A) :
  filter f l = [] -> Forall (fun x => f x = false) l.
Proof.
  induction l as [|x xs IH]; simpl; [constructor|].
  destruct (f x) eqn:E; [discriminate|]. intro H. constructor; auto.
Qed.

(** A generic name always keeps a meaningful token: no such name is made of
    stop words. *)
Lemma generic_has_parts (name : string) :
  str_mem (Str.lower name) generic_names = true ->
  filtered_parts name <> [].
Proof.
  intros Hg Hf. apply str_mem_In in Hg.
  assert (Hu : Str.contains_char "_" name = false).
  { rewrite <- lower_underscore. simpl in Hg.
    repeat (destruct Hg as [<-|Hg]; [reflexivity|]). contradiction. }
  pose proof (split_name_concat name) as Hc.
  rewrite (remove_char_absent _ _ Hu) in Hc.
  unfold filtered_parts in Hf. apply filter_nil_all in Hf.
  destruct (_split_name name) as [|t ts].
  - simpl in Hc. rewrite <- Hc in Hg. simpl in Hg.
    repeat (destruct Hg as [Hg|Hg]; [discriminate Hg|]). contradiction.
  - inversion Hf as [|? ? Ht _]; subst.
    apply negb_false_iff, str_mem_In in Ht.
    rewrite concat_cons in Hc. rewrite <- Hc in Hg.
    simpl in Ht, Hg.
    repeat (destruct Ht as [<-|Ht];
            [repeat (destruct Hg as [Hg|Hg]; [discriminate Hg|]);
             contradiction|]).
    contradiction.
Qed.

(** X6: a name made of stop words only (or of underscores only) is scored
    without a look at the implementation: 0.5 with the reasons of a name
    without meaningful parts and of a name that needs improvement, or, when
    the name has at most two characters, 0.2 with the reasons of a short and
    wrong name. *)
Theorem stop_words_only_score (name implementation : string) :
  filtered_parts name = [] ->
  if String.length name <=? 2
  then (fst (_calculate_relevance name implementation) == 2 # 10)%Q /\
       snd (_calculate_relevance name implementation)
       = [no_meaningful_parts; too_short; wrong_name]
  else (fst (_calculate_relevance name implementation) == 1 # 2)%Q /\
       snd (_calculate_relevance name implementation)
       = [no_meaningful_parts; needs_improvement].
Proof.
  intro Hf.
  assert (Hg : str_mem (Str.lower name) generic_names = false).
  { destruct (str_mem (Str.lower name) generic_names) eqn:E; [|reflexivity].
    exfalso. exact (generic_has_parts name E Hf). }
  assert (Hb : base_score name implementation
               = ((1 # 2)%Q, [no_meaningful_parts])).
  { unfold base_score. now rewrite Hf. }
  rewrite calculate_relevance_score, adjusted_reasons_last.
  pose proof (adjusted_score_cases name implementation) as Hc.
  cbv zeta in Hc. rewrite Hg, Hb in Hc. rewrite Hc.
  destruct (String.length name <=? 2); split; reflexivity.
Qed.

Lemma stop_words_only_score_witness :
  filtered_parts "is_set" = [] /\
  (fst (_calculate_relevance "is_set" "return self.value is not None")
   == 1 # 2)%Q /\
  snd (_calculate_relevance "is_set" "return self.value is not None")
  = [no_meaningful_parts; needs_improvement].
Proof.
  split; [reflexivity|].
  exact (stop_words_only_score "is_set" "return self.value is not None"
           eq_refl).
Defined.

(** ** Further properties of the analysis *)

(** X7: a function passes for a method exactly when some class that stands
    directly in the module has it, as the same object, in its body. *)
Theorem is_method_iff (tree fn : node) :
  _is_method tree fn = true <->
  exists cls y,
    In cls (Ast.iter_child_nodes tree) /\
    Ast.isClassDef cls = true /\
    In y (Ast.body cls) /\
    Ast.oid y = Ast.oid fn.
Proof.
  unfold _is_method. rewrite existsb_exists. split.
  - intros [cls [Hc Hk]]. apply filter_In in Hc. destruct Hc as [Hc Hb].
    destruct cls; try discriminate Hk. simpl in Hb.
    unfold Ast.node_in in Hb. apply existsb_exists in Hb.
    destruct Hb as [y [Hy He]]. apply Nat.eqb_eq in He.
    eexists _, y. repeat split; eauto.
  - intros [cls [y [Hc [Hk [Hy He]]]]]. exists cls. split; [|assumption].
    apply filter_In. split; [assumption|].
    destruct cls; try discriminate Hk. simpl in *.
    unfold Ast.node_in. apply existsb_exists.
    exists y. split; [assumption | now apply Nat.eqb_eq].
Qed.

Lemma make_entry_fields (entity_name impl_summary : string) (e : entry) :
  make_entry entity_name impl_summary = Ok e ->
  name e = entity_name /\
  relevance_score e = fst (_calculate_relevance entity_name impl_summary) /\
  reasons e = snd (_calculate_relevance entity_name impl_summary).
Proof.
  unfold make_entry.
  destruct (_calculate_relevance entity_name impl_summary) as [score rs].
  destruct (Qltb score (7 # 10)).
  - destruct (_generate_suggestion entity_name impl_summary); simpl;
      intro H; inversion H; subst; simpl; auto.
  - simpl. intro H. inversion H; subst; simpl; auto.
Qed.

Section Entries.

Variable cleandoc : string -> string.

(** The entries of the loop over the classes stand one for one, in order,
    for the class nodes of the list. *)
Lemma classes_loop_entries (nodes : list node) :
  forall acc es,
    classes_loop cleandoc nodes acc = Ok es ->
    exists new,
      es = acc ++ new /\
      Forall2 (entry_of (class_summary cleandoc))
        (filter Ast.isClassDef nodes) new.
Proof.
  induction nodes as [|n nodes IH]; intros acc es H; simpl in H.
  - inversion H; subst. exists []. now rewrite app_nil_r.
  - simpl. destruct (Ast.isClassDef n).
    + destruct (make_entry (Ast.name n) (class_summary cleandoc n))
        as [e|x] eqn:E; [|discriminate H].
      simpl in H. destruct (IH _ _ H) as [new [-> Hnew]].
      exists (e :: new). rewrite <- app_assoc. split; [reflexivity|].
      constructor; [|assumption].
      exact (make_entry_fields _ _ _ E).
    + now apply IH.
Qed.

Lemma functions_loop_entries (code : option string) (tree : node)
  (nodes : list node) :
  forall acc es,
    functions_loop cleandoc code tree nodes acc = Ok es ->
    exists new,
      es = acc ++ new /\
      Forall2 (entry_of (function_summary cleandoc code))
        (filter (scored_function tree) nodes) new.
Proof.
  induction nodes as [|n nodes IH]; intros acc es H; simpl in H.
  - inversion H; subst. exists []. now rewrite app_nil_r.
  - simpl. unfold scored_function at 1.
    destruct (Ast.isFunctionDef n && negb (_is_method tree n)).
    + destruct (make_entry (Ast.name n) (function_summary cleandoc code n))
        as [e|x] eqn:E; [|discriminate H].
      simpl in H. destruct (IH _ _ H) as [new [-> Hnew]].
      exists (e :: new). rewrite <- app_assoc. split; [reflexivity|].
      constructor; [|assumption].
      exact (make_entry_fields _ _ _ E).
    + now apply IH.
Qed.

Lemma entries_names (summary : node -> string) (nodes : list node)
  (es : list entry) :
  Forall2 (entry_of summary) nodes es ->
  map name es = map Ast.name nodes.
Proof.
  induction 1 as [|n e ns es' [Hn _] _ IH]; [reflexivity|].
  simpl. now rewrite Hn, IH.
Qed.

(** X8: every class definition of a parsed tree, at whatever depth, is
    reported once: the entries of [classes] stand one for one for the class
    nodes in the order of the walk (level by level), each with the name of
    its node and the score and reasons of that name against the class
    summary. *)
Theorem analyze_classes_all_depths (t : node) :
  names_ok t = true ->
  exists classes,
    _analyze_classes cleandoc t = Ok classes /\
    Forall2 (entry_of (class_summary cleandoc))
      (filter Ast.isClassDef (Ast.walk t)) classes /\
    (forall n,
        descendant n t -> Ast.isClassDef n = true ->
        In (Ast.name n) (map name classes)).
Proof.
  intro Hok. pose proof (walk_names_ok t Hok) as Hw.
  destruct (classes_loop_ok cleandoc (Ast.walk t) Hw [] (Forall_nil _))
    as [classes [Hc _]].
  exists classes. split; [exact Hc|].
  destruct (classes_loop_entries _ _ _ Hc) as [new [-> Hnew]].
  simpl. split; [assumption|].
  intros n Hd Hk. rewrite (entries_names _ _ _ Hnew).
  apply in_map. apply filter_In. split; [|assumption].
  now apply walk_complete.
Qed.

(** X9: the entries of [functions] stand one for one, in the order of the
    walk, for the function definitions of the tree that do not pass for a
    method; a function defined inside a function or inside a nested class is
    among them. *)
Theorem analyze_functions_entries (code : option string) (t : node) :
  names_ok t = true ->
  exists functions,
    _analyze_functions cleandoc code t = Ok functions /\
    Forall2 (entry_of (function_summary cleandoc code))
      (filter (scored_function t) (Ast.walk t)) functions /\
    (forall n,
        descendant n t -> Ast.isFunctionDef n = true ->
        _is_method t n = false ->
        In (Ast.name n) (map name functions)).
Proof.
  intro Hok. pose proof (walk_names_ok t Hok) as Hw.
  destruct (functions_loop_ok cleandoc code t (Ast.walk t) Hw []
              (Forall_nil _)) as [functions [Hf _]].
  exists functions. split; [exact Hf|].
  destruct (functions_loop_entries _ _ _ _ _ Hf) as [new [-> Hnew]].
  simpl. split; [assumption|].
  intros n Hd Hk Hm. rewrite (entries_names _ _ _ Hnew).
  apply in_map. apply filter_In. split; [now apply walk_complete|].
  unfold scored_function. now rewrite Hk, Hm.
Qed.

End Entries.

Lemma analyze_classes_all_depths_witness :
  exists classes,
    _analyze_classes Sample.identity Sample.nested_tree = Ok classes /\
    Forall2 (entry_of (class_summary Sample.identity))
      (filter Ast.isClassDef (Ast.walk Sample.nested_tree)) classes /\
    (forall n,
        descendant n Sample.nested_tree -> Ast.isClassDef n = true ->
        In (Ast.name n) (map name classes)).
Proof.
  exact (analyze_classes_all_depths Sample.identity Sample.nested_tree
           eq_refl).
Defined.

Lemma analyze_functions_entries_witness :
  exists functions,
    _analyze_functions Sample.identity (Some Sample.shop_code)
      Sample.shop_tree = Ok functions /\
    Forall2 (entry_of (function_summary Sample.identity
                         (Some Sample.shop_code)))
      (filter (scored_function Sample.shop_tree)
         (Ast.walk Sample.shop_tree)) functions /\
    (forall n,
        descendant n Sample.shop_tree -> Ast.isFunctionDef n = true ->
        _is_method Sample.shop_tree n = false ->
        In (Ast.name n) (map name functions)).
Proof.
  exact (analyze_functions_entries Sample.identity (Some Sample.shop_code)
           Sample.shop_tree eq_refl).
Defined.

Lemma total_bounds (xs : list Q) :
  Forall unit_interval xs ->
  (0 <= Spec.total xs)%Q /\ (Spec.total xs <= Qlen xs)%Q.
Proof.
  induction 1 as [|x xs [H0 H1] _ [IH0 IH1]].
  - simpl. change (Qlen (@nil Q)) with 0%Q. split; lra.
  - simpl. rewrite Qlen_cons. split; lra.
Qed.

(** The mean of scores between 0 and 1 lies between 0 and 1. *)
Lemma mean_bounds (xs : list Q) :
  Forall unit_interval xs ->
  xs <> [] ->
  unit_interval (sum xs / Qlen xs).
Proof.
  intros Hall Hne. destruct (total_bounds xs Hall) as [H0 H1].
  assert (Hpos : (0 < Qlen xs)%Q).
  { destruct xs as [|x xs]; [contradiction|].
    rewrite Qlen_cons. pose proof (Qlen_nonneg xs). lra. }
  pose proof (sum_total xs) as Hs. split.
  - apply Qle_shift_div_l; [assumption | lra].
  - apply Qle_shift_div_r; [assumption | lra].
Qed.

Lemma entry_of_sound (summary : node -> string) (n : node) (e : entry) :
  entry_of summary n e ->
  unit_interval (relevance_score e) /\ reasons e <> [].
Proof.
  intros [_ [Hs Hr]]. rewrite Hs, Hr, calculate_relevance_score,
    adjusted_reasons_last.
  split; [apply clamp_bounds|].
  intro H. apply app_eq_nil in H. destruct H as [_ H]. discriminate H.
Qed.

Lemma entries_sound (summary : node -> string) (nodes : list node)
  (es : list entry) :
  Forall2 (entry_of summary) nodes es ->
  Forall (fun e => unit_interval (relevance_score e) /\ reasons e <> []) es.
Proof.
  induction 1 as [|n e ns es' He _ IH]; constructor; [|assumption].
  exact (entry_of_sound _ _ _ He).
Qed.

Section Report.

Variable cleandoc : string -> string.
Variable read_file : string -> result string.
Variable ast_parse : string -> result node.

(** X10: in the report of a parsed file every entry has a score between 0
    and 1 and at least one reason, so that the first reason, which the console
    view shows, is always there; the overall score lies between 0 and 1. *)
Theorem report_invariants (path text : string) (t : node) :
  read_file path = Ok text ->
  ast_parse text = Ok t ->
  names_ok t = true ->
  exists classes functions overall,
    analyze_file cleandoc read_file ast_parse path
    = Ok (Results classes functions overall) /\
    Forall (fun e => unit_interval (relevance_score e) /\ reasons e <> [])
      (classes ++ functions) /\
    unit_interval overall.
Proof.
  intros Hr Hp Hok. unfold analyze_file.
  pose proof (init_loaded read_file ast_parse path text t Hr Hp) as Ht.
  pose proof (walk_names_ok t Hok) as Hw.
  unfold analyze. rewrite Ht.
  destruct (classes_loop_ok cleandoc (Ast.walk t) Hw [] (Forall_nil _))
    as [classes [Hc _]].
  destruct (functions_loop_ok cleandoc
              (code (fst (__init__ read_file ast_parse path))) t
              (Ast.walk t) Hw [] (Forall_nil _)) as [functions [Hf _]].
  unfold _analyze_classes, _analyze_functions. rewrite Hc, Hf. simpl.
  eexists classes, functions, _. split; [reflexivity|].
  destruct (classes_loop_entries _ _ _ _ Hc) as [cs [-> Hcs]].
  destruct (functions_loop_entries _ _ _ _ _ _ Hf) as [fs [-> Hfs]].
  simpl. apply entries_sound in Hcs, Hfs.
  assert (Hall : Forall
                   (fun e => unit_interval (relevance_score e) /\
                             reasons e <> []) (cs ++ fs)).
  { apply Forall_app. now split. }
  split; [exact Hall|].
  rewrite <- map_app.
  destruct (map relevance_score (cs ++ fs)) as [|x xs] eqn:E.
  - split; lra.
  - rewrite <- E. apply mean_bounds.
    + apply Forall_forall. intros q Hq. apply in_map_iff in Hq.
      destruct Hq as [e [<- He]].
      exact (proj1 (proj1 (Forall_forall _ _) Hall e He)).
    + rewrite E. discriminate.
Qed.


(** X12: whenever the analysis of a file returns, what it returns is the
    error dictionary exactly when reading or parsing failed; the message is
    then always the same. *)
Theorem analyze_file_error_iff (path : string) (r : report) :
  analyze_file cleandoc read_file ast_parse path = Ok r ->
  (load_fails read_file ast_parse path <->
   r = Error "Failed to parse the file") /\
  (keys r = ["error"] <-> r = Error "Failed to parse the file").
Proof.
  unfold analyze_file. intro H.
  destruct (read_file path) as [text|e] eqn:Hr.
  - destruct (ast_parse text) as [t|e] eqn:Hp.
    + pose proof (init_loaded read_file ast_parse path text t Hr Hp) as Ht.
      unfold analyze in H. rewrite Ht in H.
      destruct (_analyze_classes cleandoc t) as [cs|x]; [|discriminate H].
      destruct (_analyze_functions cleandoc _ t) as [fs|x];
        [|discriminate H].
      simpl in H. inversion H; subst. split; split; try discriminate.
      intros [[e He]|[text' [e [H1 H2]]]]; [congruence|].
      rewrite Hr in H1. inversion H1; subst. congruence.
    + assert (Hl : load_fails read_file ast_parse path) by (right; eauto).
      unfold analyze in H. rewrite (init_failed _ _ _ Hl) in H.
      inversion H; subst. repeat split; auto.
  - assert (Hl : load_fails read_file ast_parse path) by (left; eauto).
    unfold analyze in H. rewrite (init_failed _ _ _ Hl) in H.
    inversion H; subst. repeat split; auto.
Qed.

End Report.

Lemma report_invariants_witness :
  exists classes functions overall,
    analyze_file Sample.identity Sample.shop_read Sample.shop_parse "shop.py"
    = Ok (Results classes functions overall) /\
    Forall (fun e => unit_interval (relevance_score e) /\ reasons e <> [])
      (classes ++ functions) /\
    unit_interval overall.
Proof.
  exact (report_invariants Sample.identity Sample.shop_read Sample.shop_parse
           "shop.py" Sample.shop_code Sample.shop_tree
           eq_refl eq_refl eq_refl).
Defined.

Lemma analyze_file_error_iff_witness :
  (load_fails Sample.shop_read Sample.shop_parse "notes.py" <->
   Error "Failed to parse the file" = Error "Failed to parse the file") /\
  (keys (Error "Failed to parse the file") = ["error"] <->
   Error "Failed to parse the file" = Error "Failed to parse the file").
Proof.
  exact (analyze_file_error_iff Sample.identity Sample.shop_read
           Sample.shop_parse "notes.py" (Error "Failed to parse the file")
           eq_refl).
Defined.

(** ** Further properties of the suggestion generator *)

Lemma counter_add_keys (w k : string) (c : counter) :
  In k (map fst (counter_add w c)) <-> k = w \/ In k (map fst c).
Proof.
  induction c as [|[k0 n] rest IH]; simpl.
  - intuition.
  - destruct (String.eqb k0 w) eqn:E; simpl.
    + apply String.eqb_eq in E. subst. intuition.
    + rewrite IH. intuition.
Qed.

Lemma counter_add_NoDup (w : string) (c : counter) :
  NoDup (map fst c) -> NoDup (map fst (counter_add w c)).
Proof.
  induction c as [|[k0 n] rest IH]; simpl; intro H.
  - constructor; [intros [] | constructor].
  - inversion H as [|? ? Hn Hr]; subst.
    destruct (String.eqb k0 w) eqn:E; simpl.
    + now constructor.
    + constructor; [|now apply IH].
      rewrite counter_add_keys. intros [->|Hin]; [|contradiction].
      now rewrite String.eqb_refl in E.
Qed.

Lemma Counter_fold (words : list string) :
  forall c,
    (forall k,
        In k (map fst (fold_left (fun c w => counter_add w c) words c)) <->
        In k words \/ In k (map fst c)) /\
    (NoDup (map fst c) ->
     NoDup (map fst (fold_left (fun c w => counter_add w c) words c))).
Proof.
  induction words as [|w ws IH]; intro c; simpl.
  - split; [intuition | auto].
  - destruct (IH (counter_add w c)) as [Hk Hn]. split.
    + intro k. rewrite Hk, counter_add_keys. intuition.
    + intro H. apply Hn. now apply counter_add_NoDup.
Qed.

Lemma NoDup_keys_filter (f : string * nat -> bool) (c : counter) :
  NoDup (map fst c) -> NoDup (map fst (filter f c)).
Proof.
  induction c as [|kv rest IH]; simpl; intro H; [constructor|].
  inversion H as [|? ? Hn Hr]; subst.
  destruct (f kv); simpl; [|now apply IH].
  constructor; [|now apply IH].
  intro Hin. apply Hn. apply in_map_iff in Hin.
  destruct Hin as [kv' [He Hin]]. apply filter_In in Hin.
  apply in_map_iff. exists kv'. tauto.
Qed.

Lemma delete_fold (ws : list string) :
  forall c,
    (forall kv,
        In kv (fold_left (fun c word => counter_del word c) ws c) <->
        In kv c /\ ~ In (fst kv) ws) /\
    (NoDup (map fst c) ->
     NoDup (map fst (fold_left (fun c word => counter_del word c) ws c))).
Proof.
  induction ws as [|w ws IH]; intro c; simpl.
  - split; [intuition | auto].
  - destruct (IH (counter_del w c)) as [Hk Hn]. split.
    + intro kv. rewrite Hk. unfold counter_del. rewrite filter_In.
      rewrite negb_true_iff. split.
      * intros [[Hin He] Hnot]. split; [assumption|].
        intros [Hw|Hw]; [|contradiction].
        subst. now rewrite String.eqb_refl in He.
      * intros [Hin Hnot]. split; [split; [assumption|]|tauto].
        destruct (String.eqb (fst kv) w) eqn:E; [|reflexivity].
        apply String.eqb_eq in E. subst. tauto.
    + intro H. apply Hn. now apply NoDup_keys_filter.
Qed.

Lemma insert_desc_perm (x : string * nat) (l : counter) :
  Permutation (insert_desc x l) (x :: l).
Proof.
  induction l as [|y rest IH]; simpl; [reflexivity|].
  destruct (snd x <? snd y); [|reflexivity].
  rewrite IH. apply perm_swap.
Qed.

Lemma sort_desc_perm (c : counter) :
  Permutation (fold_right insert_desc [] c) c.
Proof.
  induction c as [|x rest IH]; simpl; [reflexivity|].
  now rewrite insert_desc_perm, IH.
Qed.

Lemma firstn_incl {A : Type} (n : nat) (l : list A) (x : A) :
  In x (firstn n l) -> In x l.
Proof.
  revert l. induction n as [|n IH]; intros [|y l]; simpl; try tauto.
  intros [->|H]; [now left | right; auto].
Qed.

Lemma firstn_NoDup {A : Type} (n : nat) (l : list A) :
  NoDup l -> NoDup (firstn n l).
Proof.
  revert l. induction n as [|n IH]; intros [|y l] H; simpl;
    try constructor.
  - inversion H; subst. intro Hin. apply firstn_incl in Hin. contradiction.
  - inversion H; subst. now apply IH.
Qed.

Lemma common_words_In (implementation w : string) :
  In w (common_words implementation) ->
  ~ In w stop_words /\
  In w (Re.findall_long_words (Str.lower implementation)).
Proof.
  unfold common_words, most_common. intro H.
  apply in_map_iff in H. destruct H as [kv [<- H]].
  apply firstn_incl in H.
  apply (Permutation_in _ (sort_desc_perm _)) in H.
  apply (proj1 (delete_fold stop_words _)) in H. destruct H as [H Hn].
  split; [assumption|].
  assert (Hk : In (fst kv)
                 (map fst (Counter
                    (Re.findall_long_words (Str.lower implementation))))).
  { now apply in_map. }
  unfold Counter in Hk. apply (proj1 (Counter_fold _ [])) in Hk.
  destruct Hk as [Hk|[]]. assumption.
Qed.

Lemma common_words_NoDup (implementation : string) :
  NoDup (common_words implementation).
Proof.
  unfold common_words, most_common. rewrite <- firstn_map.
  apply firstn_NoDup.
  apply (Permutation_NoDup
           (Permutation_map fst (Permutation_sym (sort_desc_perm _)))).
  apply (proj2 (delete_fold stop_words _)).
  unfold Counter. apply (proj2 (Counter_fold _ [])). constructor.
Qed.

Lemma common_words_nil (implementation : string) :
  common_words implementation = [] <->
  forall w,
    In w (Re.findall_long_words (Str.lower implementation)) ->
    In w stop_words.
Proof.
  split.
  - intros H w Hw.
    destruct (in_dec string_dec w stop_words) as [Hs|Hs]; [assumption|].
    exfalso.
    assert (Hk : In w (map fst (Counter
                   (Re.findall_long_words (Str.lower implementation))))).
    { unfold Counter. apply (proj1 (Counter_fold _ [])). now left. }
    apply in_map_iff in Hk. destruct Hk as [kv [He Hk]].
    assert (Hd : In kv (fold_left (fun c word => counter_del word c)
                          stop_words
                          (Counter (Re.findall_long_words
                                      (Str.lower implementation))))).
    { apply (proj1 (delete_fold stop_words _)). rewrite He. now split. }
    apply (Permutation_in _ (Permutation_sym (sort_desc_perm _))) in Hd.
    unfold common_words, most_common in H.
    destruct (fold_right insert_desc [] _) as [|x xs];
      [contradiction | discriminate H].
  - intro H. destruct (common_words implementation) as [|w ws] eqn:E;
      [reflexivity|].
    exfalso.
    destruct (common_words_In implementation w) as [Hn Hw];
      [rewrite E; now left|].
    exact (Hn (H w Hw)).
Qed.

Lemma generate_suggestion_text (original_name implementation : string) :
  Str.truthy original_name = true ->
  _generate_suggestion original_name implementation
  = Ok (suggestion_text original_name (common_words implementation)).
Proof.
  intro Hn. unfold _generate_suggestion, suggestion_text.
  fold (common_words implementation).
  destruct (common_words implementation) as [|first others]; [reflexivity|].
  destruct (Str.contains_char "_" original_name); [reflexivity|].
  destruct original_name as [|c rest]; [discriminate|].
  simpl. destruct (Str.isupper c); reflexivity.
Qed.

(** X13: for a name that is not empty the suggestion generator returns a
    string built from at most three different words; each of them is a word
    of the implementation text in lower case and none is a stop word; the
    words are joined by underscores, in Pascal case or in camel case after
    the style of the name; the fixed message about the docstring is returned
    exactly when the implementation has no word besides stop words. *)
Theorem suggestion_words (original_name implementation : string) :
  Str.truthy original_name = true ->
  exists ws,
    _generate_suggestion original_name implementation
    = Ok (suggestion_text original_name ws) /\
    List.length ws <= 3 /\
    NoDup ws /\
    (forall w,
        In w ws ->
        ~ In w stop_words /\
        In w (Re.findall_long_words (Str.lower implementation))) /\
    (ws = [] <->
     forall w,
       In w (Re.findall_long_words (Str.lower implementation)) ->
       In w stop_words).
Proof.
  intro Hn. exists (common_words implementation).
  split; [now apply generate_suggestion_text|].
  split.
  { unfold common_words, most_common. rewrite length_map.
    apply firstn_le_length. }
  split; [apply common_words_NoDup|].
  split; [apply common_words_In | apply common_words_nil].
Qed.

Lemma suggestion_words_witness :
  exists ws,
    _generate_suggestion "load_it" "load the user and load the file"
    = Ok (suggestion_text "load_it" ws) /\
    List.length ws <= 3 /\
    NoDup ws /\
    (forall w,
        In w ws ->
        ~ In w stop_words /\
        In w (Re.findall_long_words
                (Str.lower "load the user and load the file"))) /\
    (ws = [] <->
     forall w,
       In w (Re.findall_long_words
               (Str.lower "load the user and load the file")) ->
       In w stop_words).
Proof.
  exact (suggestion_words "load_it" "load the user and load the file"
           eq_refl).
Defined.

Lemma counter_add_count (w k : string) (c : counter) :
  count_in (counter_add w c) k
  = if String.eqb k w then S (count_in c k) else count_in c k.
Proof.
  unfold count_in. induction c as [|[k0 n] rest IH]; simpl.
  - rewrite (String.eqb_sym w k). destruct (String.eqb k w); reflexivity.
  - destruct (String.eqb k0 w) eqn:E; simpl.
    + apply String.eqb_eq in E. subst k0.
      rewrite (String.eqb_sym w k). destruct (String.eqb k w); reflexivity.
    + destruct (String.eqb k0 k) eqn:Ek; [|exact IH].
      apply String.eqb_eq in Ek. subst k0. now rewrite E.
Qed.

Lemma Counter_count (words : list string) (k : string) :
  forall c,
    count_in (fold_left (fun c w => counter_add w c) words c) k
    = count_in c k + count_occ string_dec words k.
Proof.
  induction words as [|w ws IH]; intro c; simpl; [lia|].
  rewrite IH, counter_add_count.
  destruct (string_dec w k) as [->|N].
  - rewrite String.eqb_refl. lia.
  - destruct (String.eqb k w) eqn:E; [|lia].
    apply String.eqb_eq in E. now elim N.
Qed.

Lemma count_in_NoDup (c : counter) (kv : string * nat) :
  NoDup (map fst c) -> In kv c -> count_in c (fst kv) = snd kv.
Proof.
  unfold count_in. induction c as [|x rest IH]; simpl; intros Hn Hin;
    [contradiction|].
  destruct Hin as [->|Hin].
  - now rewrite String.eqb_refl.
  - inversion Hn as [|? ? Hx Hr]; subst.
    destruct (String.eqb (fst x) (fst kv)) eqn:E; [|now apply IH].
    apply String.eqb_eq in E. exfalso. apply Hx. rewrite E.
    now apply in_map.
Qed.

Lemma insert_desc_sorted (x : string * nat) (l : counter) :
  StronglySorted (fun a b => snd b <= snd a) l ->
  StronglySorted (fun a b => snd b <= snd a) (insert_desc x l).
Proof.
  induction 1 as [|y rest Hs IH Hy]; simpl.
  - constructor; constructor.
  - destruct (snd x <? snd y) eqn:E.
    + apply Nat.ltb_lt in E. constructor; [assumption|].
      apply (Permutation_Forall (Permutation_sym (insert_desc_perm x rest))).
      constructor; [lia | assumption].
    + apply Nat.ltb_ge in E. constructor.
      * now constructor.
      * constructor; [assumption|].
        apply Forall_forall. intros z Hz.
        pose proof (proj1 (Forall_forall _ _) Hy z Hz). simpl in *. lia.
Qed.

Lemma sort_desc_sorted (c : counter) :
  StronglySorted (fun a b => snd b <= snd a) (fold_right insert_desc [] c).
Proof.
  induction c as [|x rest IH]; simpl; [constructor|].
  now apply insert_desc_sorted.
Qed.

Lemma sorted_split {A : Type} (R : A -> A -> Prop) (l1 l2 : list A) :
  StronglySorted R (l1 ++ l2) ->
  StronglySorted R l1 /\ forall a b, In a l1 -> In b l2 -> R a b.
Proof.
  induction l1 as [|x l1 IH]; simpl; intro H.
  - split; [constructor | intros a b []].
  - inversion H as [|? ? Hs Hx]; subst.
    destruct (IH Hs) as [H1 H2]. split.
    + constructor; [assumption|].
      apply Forall_forall. intros z Hz.
      apply (proj1 (Forall_forall _ _) Hx). apply in_or_app. now left.
    + intros a b [<-|Ha] Hb; [|now apply H2].
      apply (proj1 (Forall_forall _ _) Hx). apply in_or_app. now right.
Qed.

Lemma sorted_map_keys (occ : string -> nat) (l : counter) :
  Forall (fun kv => snd kv = occ (fst kv)) l ->
  StronglySorted (fun a b => snd b <= snd a) l ->
  StronglySorted (fun a b => occ b <= occ a) (map fst l).
Proof.
  intros Hocc. induction 1 as [|x rest Hs IH Hx]; simpl; [constructor|].
  inversion Hocc as [|? ? Ho Hr]; subst.
  constructor; [now apply IH|].
  apply Forall_forall. intros k Hk. apply in_map_iff in Hk.
  destruct Hk as [kv [<- Hin]].
  pose proof (proj1 (Forall_forall _ _) Hx kv Hin) as Hle.
  pose proof (proj1 (Forall_forall _ _) Hr kv Hin) as Hkv.
  cbv beta in Hle, Hkv, Ho. rewrite <- Hkv, <- Ho. exact Hle.
Qed.

(** X14: the words of a suggestion stand in the order of decreasing
    frequency in the implementation text, and no other word of the text,
    stop words aside, is more frequent than a suggested one. *)
Theorem suggestion_most_frequent (original_name implementation : string) :
  Str.truthy original_name = true ->
  exists ws,
    _generate_suggestion original_name implementation
    = Ok (suggestion_text original_name ws) /\
    StronglySorted
      (fun a b =>
         occurrences implementation b <= occurrences implementation a) ws /\
    (forall w v,
        In w (Re.findall_long_words (Str.lower implementation)) ->
        ~ In w stop_words ->
        ~ In w ws ->
        In v ws ->
        occurrences implementation w <= occurrences implementation v).
Proof.
  intro Hn. exists (common_words implementation).
  split; [now apply generate_suggestion_text|].
  unfold common_words, most_common.
  set (words := Re.findall_long_words (Str.lower implementation)).
  set (c := fold_left (fun c word => counter_del word c) stop_words
              (Counter words)).
  set (L := fold_right insert_desc [] c).
  assert (HL : Permutation L c) by apply sort_desc_perm.
  assert (Hnd : NoDup (map fst (Counter words))).
  { unfold Counter. apply (proj2 (Counter_fold _ [])). constructor. }
  assert (Hocc : Forall
                   (fun kv => snd kv = occurrences implementation (fst kv))
                   L).
  { apply Forall_forall. intros kv Hkv.
    apply (Permutation_in _ HL) in Hkv.
    apply (proj1 (delete_fold stop_words _)) in Hkv.
    destruct Hkv as [Hkv _].
    rewrite <- (count_in_NoDup _ kv Hnd Hkv).
    unfold Counter, occurrences. fold words.
    now rewrite Counter_count. }
  pose proof (sort_desc_sorted c) as Hs. fold L in Hs.
  rewrite <- (firstn_skipn 3 L) in Hs, Hocc.
  apply sorted_split in Hs. destruct Hs as [Hs1 Hs2].
  apply Forall_app in Hocc. destruct Hocc as [Ho1 Ho2].
  split; [now apply sorted_map_keys|].
  intros w v Hw Hstop Hnot Hv.
  apply in_map_iff in Hv. destruct Hv as [kv [<- Hkv]].
  assert (Hk : In w (map fst (Counter words))).
  { unfold Counter. apply (proj1 (Counter_fold _ [])). now left. }
  apply in_map_iff in Hk. destruct Hk as [kw [<- Hkw]].
  assert (Hin : In kw L).
  { apply (Permutation_in _ (Permutation_sym HL)).
    apply (proj1 (delete_fold stop_words _)). now split. }
  rewrite <- (firstn_skipn 3 L) in Hin. apply in_app_or in Hin.
  destruct Hin as [Hin|Hin]; [elim Hnot; now apply in_map|].
  pose proof (Hs2 kv kw Hkv Hin) as Hle.
  rewrite <- (proj1 (Forall_forall _ _) Ho1 kv Hkv).
  rewrite <- (proj1 (Forall_forall _ _) Ho2 kw Hin).
  exact Hle.
Qed.

Lemma suggestion_most_frequent_witness :
  exists ws,
    _generate_suggestion "load_it" "load the user and load the file"
    = Ok (suggestion_text "load_it" ws) /\
    StronglySorted
      (fun a b =>
         occurrences "load the user and load the file" b
         <= occurrences "load the user and load the file" a) ws /\
    (forall w v,
        In w (Re.findall_long_words
                (Str.lower "load the user and load the file")) ->
        ~ In w stop_words ->
        ~ In w ws ->
        In v ws ->
        occurrences "load the user and load the file" w
        <= occurrences "load the user and load the file" v).
Proof.
  exact (suggestion_most_frequent "load_it" "load the user and load the file"
           eq_refl).
Defined.

(** ** The source text of a function *)

Lemma has_linebreak_append (a b : string) :
  has_linebreak (a ++ b) = has_linebreak a || has_linebreak b.
Proof.
  induction a as [|c a IH]; simpl; [reflexivity|].
  now rewrite IH, orb_assoc.
Qed.

Lemma splitlines_acc_clean (s : string) :
  (forall cur,
      has_linebreak cur = false ->
      Forall (fun l => has_linebreak l = false) (Str.splitlines_acc s cur)) /\
  (forall d rest cur,
      s = String d rest ->
      has_linebreak cur = false ->
      Forall (fun l => has_linebreak l = false)
        (Str.splitlines_acc rest cur)).
Proof.
  induction s as [|c s [IH1 IH2]].
  - split; [|discriminate].
    intros cur Hc. simpl. destruct (Str.truthy cur); repeat constructor.
    assumption.
  - split.
    + intros cur Hc. cbn [Str.splitlines_acc].
      destruct (Str.is_linebreak c) eqn:E.
      * destruct s as [|d rest].
        -- repeat constructor. assumption.
        -- destruct ((nat_of_ascii c =? 13) && (nat_of_ascii d =? 10)).
           ++ constructor; [assumption|]. now apply (IH2 d rest).
           ++ constructor; [assumption|]. now apply IH1.
      * apply IH1. rewrite has_linebreak_append, Hc. simpl. now rewrite E.
    + intros d rest cur H Hc. inversion H; subst. now apply IH1.
Qed.

Lemma join_clean (parts : list string) :
  Forall (fun l => has_linebreak l = false) parts ->
  has_linebreak (Str.join " " parts) = false.
Proof.
  induction 1 as [|p ps Hp Hps IH]; [reflexivity|].
  destruct ps as [|q qs]; [exact Hp|].
  change (has_linebreak (p ++ " " ++ Str.join " " (q :: qs)) = false).
  now rewrite !has_linebreak_append, Hp, IH.
Qed.

Lemma slice_Forall {A : Type} (P : A -> Prop) (lo hi : nat) (xs : list A) :
  Forall P xs -> Forall P (Str.slice lo hi xs).
Proof.
  intro H. apply Forall_forall. intros x Hx. unfold Str.slice in Hx.
  apply firstn_incl in Hx.
  apply (proj1 (Forall_forall _ _) H).
  rewrite <- (firstn_skipn lo xs). apply in_or_app. now right.
Qed.

(** X15: the source text taken for a function is one line: the lines of the
    function are joined by spaces and no line boundary is left in it.  It is
    empty when the detector holds no text or an empty text. *)
Theorem node_source_one_line (code : option string) (n : node) :
  has_linebreak (_get_node_source code n) = false /\
  (code = None \/ code = Some EmptyString ->
   _get_node_source code n = EmptyString).
Proof.
  split.
  - unfold _get_node_source. destruct code as [text|]; [|reflexivity].
    destruct (negb (Str.truthy text)); [reflexivity|].
    destruct n; try reflexivity.
    apply join_clean, slice_Forall.
    now apply (proj1 (splitlines_acc_clean text)).
  - intros [->| ->]; reflexivity.
Qed.

(** ** The command line *)

Lemma basename_acc_plain (p : string) :
  forall cur,
    Str.contains_char "/" p = false ->
    Os.basename_acc p cur = (cur ++ p)%string.
Proof.
  induction p as [|c p IH]; intros cur H; simpl.
  - induction cur as [|d cur IHc]; simpl; [reflexivity | now rewrite <- IHc].
  - simpl in H. apply orb_false_iff in H. destruct H as [Hc Hp].
    rewrite Hc, (IH _ Hp). now rewrite append_assoc.
Qed.

Lemma basename_acc_dir (dir rest : string) :
  forall cur,
    Os.basename_acc (dir ++ String "/" rest) cur
    = Os.basename_acc rest EmptyString.
Proof.
  induction dir as [|c dir IH]; intro cur; simpl; [reflexivity|].
  destruct (Ascii.eqb c "/"); apply IH.
Qed.

Lemma append_nil_r (s : string) : (s ++ EmptyString)%string = s.
Proof.
  induction s as [|c s IH]; simpl; [reflexivity | now rewrite IH].
Qed.

Lemma prefix_py_extend (c : ascii) (rest tail : string) :
  String.prefix ".py" (String c rest) = false ->
  String.prefix ".py" (String c (rest ++ String "." tail)) = false.
Proof.
  intro Hp.
  destruct rest as [|d [|e r3]]; cbn [String.prefix append] in Hp |- *;
    repeat match goal with
           | |- context [ascii_dec ?a ?b] => destruct (ascii_dec a b)
           | H : context [ascii_dec ?a ?b] |- _ => destruct (ascii_dec a b)
           end;
    try reflexivity; try discriminate.
  destruct r3; discriminate Hp.
Qed.

(** The occurrences of [.py] are replaced up to the first [.py] that
    follows a text without one. *)
Lemma replace_first (new stem tail : string) :
  Str.contains ".py" stem = false ->
  Os.replace ".py" new (stem ++ ".py" ++ tail)
  = (stem ++ new ++ Os.replace ".py" new tail)%string.
Proof.
  unfold Os.replace. induction stem as [|c rest IH]; intro H.
  - destruct tail; reflexivity.
  - cbn [Str.contains] in H. apply orb_false_iff in H.
    destruct H as [Hp Hc].
    change ((String c rest ++ ".py" ++ tail)%string)
      with (String c (rest ++ String "." ("py" ++ tail))%string).
    cbn [Os.replace_scan].
    rewrite (prefix_py_extend c rest _ Hp).
    change (rest ++ String "." ("py" ++ tail))%string
      with (rest ++ ".py" ++ tail)%string.
    now rewrite (IH Hc).
Qed.

(** X16: the results of [dir/stem.py] are saved as [stem_analysis.json]
    (without the directory) when [stem] holds no [.py] itself; every
    occurrence of [.py] in the file name is replaced, not only the ending. *)
Theorem output_file_name (dir stem : string) :
  Str.contains_char "/" stem = false ->
  Str.contains ".py" stem = false ->
  output_file (dir ++ "/" ++ stem ++ ".py") = (stem ++ "_analysis.json")%string /\
  output_file (stem ++ ".py") = (stem ++ "_analysis.json")%string /\
  output_file (stem ++ ".py" ++ stem ++ ".py")
  = (stem ++ "_analysis.json" ++ stem ++ "_analysis.json")%string.
Proof.
  intros Hs Hp.
  assert (Hr : forall tail,
             Os.replace ".py" "_analysis.json" (stem ++ ".py" ++ tail)
             = (stem ++ "_analysis.json"
                ++ Os.replace ".py" "_analysis.json" tail)%string).
  { intro tail. now apply replace_first. }
  assert (Hb : Os.basename (stem ++ ".py") = (stem ++ ".py")%string).
  { unfold Os.basename. rewrite basename_acc_plain; [reflexivity|].
    rewrite contains_char_append, Hs. reflexivity. }
  assert (H1 : Os.replace ".py" "_analysis.json" (stem ++ ".py")
               = (stem ++ "_analysis.json")%string).
  { change (stem ++ ".py")%string with (stem ++ ".py" ++ EmptyString)%string.
    rewrite Hr. reflexivity. }
  split; [|split].
  - unfold output_file, Os.basename.
    change (dir ++ "/" ++ stem ++ ".py")%string
      with (dir ++ String "/" (stem ++ ".py"))%string.
    rewrite basename_acc_dir. fold (Os.basename (stem ++ ".py")).
    now rewrite Hb.
  - unfold output_file. now rewrite Hb.
  - assert (Hb2 : Os.basename (stem ++ ".py" ++ stem ++ ".py")
                   = (stem ++ ".py" ++ stem ++ ".py")%string).
    { unfold Os.basename. rewrite basename_acc_plain; [reflexivity|].
      rewrite !contains_char_append, Hs. reflexivity. }
    unfold output_file. now rewrite Hb2, Hr, H1.
Qed.

Lemma output_file_name_witness :
  output_file ("src/pkg" ++ "/" ++ "tool" ++ ".py")
  = ("tool" ++ "_analysis.json")%string /\
  output_file ("tool" ++ ".py") = ("tool" ++ "_analysis.json")%string /\
  output_file ("tool" ++ ".py" ++ "tool" ++ ".py")
  = ("tool" ++ "_analysis.json" ++ "tool" ++ "_analysis.json")%string.
Proof.
  exact (output_file_name "src/pkg" "tool" eq_refl eq_refl).
Defined.

Lemma and_then_ok (a b : run) :
  snd a = None -> snd b = None ->
  and_then a b = (fst a ++ fst b, None).
Proof.
  destruct a as [out [x|]], b as [out' r]; simpl; intros Ha Hb;
    [discriminate | now subst].
Qed.

Lemma last_cons_snoc {A : Type} (a x d : A) (l : list A) :
  last (a :: l ++ [x]) d = x.
Proof.
  change (a :: l ++ [x]) with ((a :: l) ++ [x]). apply last_last.
Qed.

Section Console.

Variable format_2f : Q -> string.

Lemma print_entity_ok (detailed : bool) (e : entry) :
  reasons e <> [] ->
  snd (print_entity format_2f detailed e) = None /\
  Forall is_print (fst (print_entity format_2f detailed e)) /\
  (detailed = false ->
   List.length (fst (print_entity format_2f detailed e)) = 1).
Proof.
  intro H. unfold print_entity.
  destruct (reasons e) as [|first rest]; [contradiction|]. simpl.
  split; [reflexivity|]. split.
  - constructor; [eexists; reflexivity|].
    destruct detailed; [|constructor].
    destruct (suggestion e) as [s|]; [|constructor].
    destruct (Str.truthy s); repeat constructor. eexists; reflexivity.
  - intros ->. reflexivity.
Qed.

Lemma print_entities_ok (detailed : bool) (es : list entry) :
  Forall (fun e => reasons e <> []) es ->
  snd (print_entities format_2f detailed es) = None /\
  Forall is_print (fst (print_entities format_2f detailed es)) /\
  (detailed = false ->
   List.length (fst (print_entities format_2f detailed es))
   = List.length es).
Proof.
  induction 1 as [|e es He _ [IH1 [IH2 IH3]]]; simpl.
  - repeat split; constructor.
  - destruct (print_entity_ok detailed e He) as [H1 [H2 H3]].
    rewrite (and_then_ok _ _ H1 IH1). simpl.
    split; [reflexivity|]. split.
    + apply Forall_app. now split.
    + intro Hd. rewrite length_app, (H3 Hd), (IH3 Hd). reflexivity.
Qed.

Lemma print_results_ok (classes functions : list entry) (overall : Q)
  (detailed : bool) :
  Forall (fun e => reasons e <> []) (classes ++ functions) ->
  snd (print_results format_2f (Results classes functions overall) detailed)
  = None /\
  Forall is_print
    (fst (print_results format_2f (Results classes functions overall)
            detailed)) /\
  (detailed = false ->
   List.length
     (fst (print_results format_2f (Results classes functions overall)
             detailed))
   = 4 + List.length classes + List.length functions).
Proof.
  intro H. apply Forall_app in H. destruct H as [Hc Hf].
  destruct (print_entities_ok detailed classes Hc) as [C1 [C2 C3]].
  destruct (print_entities_ok detailed functions Hf) as [F1 [F2 F3]].
  unfold print_results.
  rewrite (and_then_ok (_, None) (print_entities format_2f detailed functions)
             eq_refl F1).
  rewrite (and_then_ok (print_entities format_2f detailed classes) (_, None)
             C1 eq_refl).
  cbn [and_then fst snd app].
  split; [reflexivity|]. split.
  - repeat (constructor; [eexists; reflexivity|]).
    apply Forall_app. split; [assumption|].
    constructor; [eexists; reflexivity | assumption].
  - intro Hd. cbn [List.length]. rewrite length_app. cbn [List.length].
    rewrite (C3 Hd), (F3 Hd). lia.
Qed.

Variable cleandoc : string -> string.

Lemma analyze_reasons (self : detector) (classes functions : list entry)
  (overall : Q) :
  analyze cleandoc self = Ok (Results classes functions overall) ->
  Forall (fun e => reasons e <> []) (classes ++ functions).
Proof.
  unfold analyze. destruct (tree self) as [t|]; [|discriminate].
  unfold _analyze_classes, _analyze_functions.
  destruct (classes_loop cleandoc (Ast.walk t) []) as [cs|x] eqn:Hc;
    [|discriminate].
  destruct (functions_loop cleandoc (code self) t (Ast.walk t) [])
    as [fs|x] eqn:Hf; [|discriminate].
  simpl. intro H. inversion H; subst.
  destruct (classes_loop_entries _ _ _ _ Hc) as [cs' [-> Hcs]].
  destruct (functions_loop_entries _ _ _ _ _ _ Hf) as [fs' [-> Hfs]].
  simpl. apply entries_sound in Hcs, Hfs.
  apply Forall_app. split.
  - eapply Forall_impl; [|exact Hcs]. simpl. tauto.
  - eapply Forall_impl; [|exact Hfs]. simpl. tauto.
Qed.

Variable read_file : string -> result string.
Variable ast_parse : string -> result node.

(** X17: [print_results] never fails on the report of an analysis: the first
    reason it shows is there for every entity.  It prints only; without the
    detailed flag it prints four lines of headings and one line for each class
    and each function, and no suggestion. *)
Theorem print_results_of_analysis (path : string)
  (classes functions : list entry) (overall : Q) (detailed : bool) :
  analyze_file cleandoc read_file ast_parse path
  = Ok (Results classes functions overall) ->
  snd (print_results format_2f (Results classes functions overall) detailed)
  = None /\
  Forall is_print
    (fst (print_results format_2f (Results classes functions overall)
            detailed)) /\
  (detailed = false ->
   List.length
     (fst (print_results format_2f (Results classes functions overall)
             detailed))
   = 4 + List.length classes + List.length functions).
Proof.
  intro H. apply print_results_ok.
  exact (analyze_reasons _ _ _ _ H).
Qed.

Variable json_dump : report -> string.
Variable path_exists : string -> bool.
Variable open_write : string -> result unit.
Variable default_path : string.

(** X18: when the file is missing, when its name does not end in [.py], or
    when it cannot be read or parsed, [main] ends without an exception, writes
    no file and prints a last line that starts with [Error]. *)
Theorem main_failure (argv : list string) :
  let p := file_path_of default_path argv in
  let r :=
    main format_2f json_dump path_exists open_write default_path cleandoc
      read_file ast_parse argv in
  path_exists p = false \/
  Os.endswith p ".py" = false \/
  load_fails read_file ast_parse p ->
  snd r = None /\
  Forall is_print (fst r) /\
  exists line,
    last (fst r) (Print EmptyString) = Print line /\
    String.prefix "Error" line = true.
Proof.
  cbv zeta. intro H. unfold main.
  destruct (path_exists (file_path_of default_path argv)) eqn:He; simpl.
  - destruct (Os.endswith (file_path_of default_path argv) ".py") eqn:Hs;
      simpl.
    + destruct H as [H|[H|H]]; try discriminate H.
      pose proof (init_failed read_file ast_parse _ H) as Ht.
      destruct (__init__ read_file ast_parse
                  (file_path_of default_path argv)) as [d printed].
      simpl in Ht. unfold analyze. rewrite Ht. simpl.
      split; [reflexivity|]. split.
      * constructor; [eexists; reflexivity|].
        apply Forall_app. split.
        -- apply Forall_forall. intros ev Hev. apply in_map_iff in Hev.
           destruct Hev as [t [<- _]]. eexists; reflexivity.
        -- repeat constructor. eexists; reflexivity.
      * exists "Error: Failed to parse the file". split; [|reflexivity].
        apply last_cons_snoc.
    + split; [reflexivity|]. split.
      * repeat constructor. eexists; reflexivity.
      * eexists. split; reflexivity.
  - split; [reflexivity|]. split.
    + repeat constructor. eexists; reflexivity.
    + eexists. split; reflexivity.
Qed.

(** X19: for a file that exists, is named [*.py] and is read and parsed,
    [main] prints the line [Analyzing: ...] first and then the results; it
    writes a file only when [--save] or [-s] is among the arguments, and then,
    when the file can be opened, it writes the report of the analysis to the
    file named after the source file and ends without an exception. *)
Theorem main_success (argv : list string) (text : string) (t : node) :
  let p := file_path_of default_path argv in
  let r :=
    main format_2f json_dump path_exists open_write default_path cleandoc
      read_file ast_parse argv in
  path_exists p = true ->
  Os.endswith p ".py" = true ->
  read_file p = Ok text ->
  ast_parse text = Ok t ->
  names_ok t = true ->
  exists results,
    analyze_file cleandoc read_file ast_parse p = Ok results /\
    hd_error (fst r) = Some (Print ("Analyzing: " ++ p)) /\
    (str_mem "--save" argv || str_mem "-s" argv = false ->
     snd r = None /\ Forall is_print (fst r)) /\
    (str_mem "--save" argv || str_mem "-s" argv = true ->
     open_write (output_file p) = Ok tt ->
     snd r = None /\
     In (WriteFile (output_file p) (json_dump results)) (fst r)).
Proof.
  cbv zeta. intros He Hs Hr Hp Hok.
  set (p := file_path_of default_path argv) in *.
  pose proof (init_loaded read_file ast_parse p text t Hr Hp) as Ht.
  destruct (analyze_results cleandoc _ t Ht Hok)
    as [classes [functions [Ha _]]].
  assert (Hprinted : snd (__init__ read_file ast_parse p) = []).
  { unfold __init__, load_file. simpl. now rewrite Hr, Hp. }
  eexists. split; [exact Ha|].
  pose proof (analyze_reasons _ _ _ _ Ha) as Hrs.
  unfold main. fold p. rewrite He, Hs. simpl negb. cbv iota.
  destruct (__init__ read_file ast_parse p) as [d printed].
  simpl in Ha, Hprinted. subst printed. rewrite Ha.
  cbv beta iota.
  match goal with
  | |- context [print_results format_2f (Results ?c ?f ?o) ?det] =>
      destruct (print_results_ok c f o det Hrs) as [P1 [P2 P3]];
      set (pr := print_results format_2f (Results c f o) det) in *
  end.
  split; [reflexivity|]. split.
  - intro Hflag. rewrite Hflag.
    rewrite (and_then_ok pr (_, None) P1 eq_refl).
    cbn [and_then fst snd map app]. split; [reflexivity|].
    constructor; [eexists; reflexivity|].
    rewrite app_nil_r. exact P2.
  - intros Hflag Hopen. rewrite Hflag, Hopen.
    rewrite (and_then_ok pr (_, None) P1 eq_refl).
    cbn [and_then fst snd map app]. split; [reflexivity|].
    right. apply in_or_app. right. now left.
Qed.

End Console.

Lemma print_results_of_analysis_witness :
  snd (print_results SampleApp.show_score SampleApp.shop_report false)
  = None /\
  Forall is_print
    (fst (print_results SampleApp.show_score SampleApp.shop_report false)) /\
  (false = false ->
   List.length
     (fst (print_results SampleApp.show_score SampleApp.shop_report false))
   = 4 + 1 + 1).
Proof.
  apply (print_results_of_analysis SampleApp.show_score Sample.identity
           Sample.shop_read Sample.shop_parse "shop.py").
  vm_compute. reflexivity.
Defined.

Lemma main_failure_witness :
  snd (SampleApp.run_main ["app.py"; "notes.txt"; "--save"]) = None /\
  Forall is_print (fst (SampleApp.run_main ["app.py"; "notes.txt"; "--save"])) /\
  exists line,
    last (fst (SampleApp.run_main ["app.py"; "notes.txt"; "--save"]))
      (Print EmptyString) = Print line /\
    String.prefix "Error" line = true.
Proof.
  apply (main_failure SampleApp.show_score Sample.identity Sample.shop_read
           Sample.shop_parse SampleApp.render SampleApp.always_there
           SampleApp.can_open "all_func.py"
           ["app.py"; "notes.txt"; "--save"]).
  right. left. reflexivity.
Defined.

Lemma main_success_witness :
  exists results,
    analyze_file Sample.identity Sample.shop_read Sample.shop_parse "shop.py"
    = Ok results /\
    hd_error (fst (SampleApp.run_main ["app.py"; "shop.py"; "--save"]))
    = Some (Print "Analyzing: shop.py") /\
    (str_mem "--save" ["app.py"; "shop.py"; "--save"]
     || str_mem "-s" ["app.py"; "shop.py"; "--save"] = false ->
     snd (SampleApp.run_main ["app.py"; "shop.py"; "--save"]) = None /\
     Forall is_print
       (fst (SampleApp.run_main ["app.py"; "shop.py"; "--save"]))) /\
    (str_mem "--save" ["app.py"; "shop.py"; "--save"]
     || str_mem "-s" ["app.py"; "shop.py"; "--save"] = true ->
     SampleApp.can_open (output_file "shop.py") = Ok tt ->
     snd (SampleApp.run_main ["app.py"; "shop.py"; "--save"]) = None /\
     In (WriteFile (output_file "shop.py") (SampleApp.render results))
       (fst (SampleApp.run_main ["app.py"; "shop.py"; "--save"]))).
Proof.
  exact (main_success SampleApp.show_score Sample.identity Sample.shop_read
           Sample.shop_parse SampleApp.render SampleApp.always_there
           SampleApp.can_open "all_func.py"
           ["app.py"; "shop.py"; "--save"] Sample.shop_code Sample.shop_tree
           eq_refl eq_refl eq_refl eq_refl eq_refl).
Defined.
